(** * OnMapPlotter: the table reader and the plot/line state manager

    A shallow embedding of [src/OnMapPlotter.py]: the function
    [readTxtTable] and the class [PlotManager].  Python dictionaries that
    are mutated in place and may be shared between callers live in an
    explicit heap; the [lines] dictionary keeps its insertion order. *)

From Stdlib Require Import ZArith QArith Ascii String List Sorted.
From stdpp Require Import base option list gmap strings pretty.

Local Open Scope string_scope.
Local Open Scope list_scope.
Local Open Scope Z_scope.

(** ** Python string primitives used by the reader *)

Module PyStr.

Definition NL : ascii := "010"%char.
Definition TAB : ascii := "009"%char.
Definition SP : ascii := " "%char.

(** [c in chars] for a one-character string [c]. *)
Fixpoint char_in (c : ascii) (chars : string) : bool :=
  match chars with
  | EmptyString => false
  | String d rest => Ascii.eqb c d || char_in c rest
  end.

(** [str.isalpha] on one character.  The text is modelled as ASCII: the
    letters are [A-Z] and [a-z]. *)
Definition isalpha (c : ascii) : bool :=
  let n := nat_of_ascii c in
  ((65 <=? n)%nat && (n <=? 90)%nat) || ((97 <=? n)%nat && (n <=? 122)%nat).

(** [s.lstrip(ch)] for a single character [ch]. *)
Fixpoint lstrip (ch : ascii) (s : string) : string :=
  match s with
  | EmptyString => EmptyString
  | String c rest => if Ascii.eqb c ch then lstrip ch rest else s
  end.

(** [s.rstrip(ch)] for a single character [ch]. *)
Fixpoint rstrip (ch : ascii) (s : string) : string :=
  match s with
  | EmptyString => EmptyString
  | String c rest =>
      match rstrip ch rest with
      | EmptyString => if Ascii.eqb c ch then EmptyString else String c EmptyString
      | r => String c r
      end
  end.

Definition strip (ch : ascii) (s : string) : string := rstrip ch (lstrip ch s).

(** [file.readlines()] on the decoded text: the lines in order, each one
    keeping its terminating newline; only the last line may lack it, and
    no line is empty. *)
Fixpoint readlines (text : string) : list string :=
  match text with
  | EmptyString => []
  | String c rest =>
      if Ascii.eqb c NL then String c EmptyString :: readlines rest
      else match readlines rest with
           | [] => [String c EmptyString]
           | l :: ls => String c l :: ls
           end
  end.

End PyStr.

(** ** [readTxtTable] *)

Module Reader.
Import PyStr.

(** A cell of a row: a parsed number or the trailing label. *)
Inductive cell : Type :=
  | Num (q : Q)
  | Label (s : string).

Inductive error : Type :=
  | ValueError (token : string).

Inductive result (A : Type) : Type :=
  | Ok (a : A)
  | Raise (e : error).
Arguments Ok {A} a.
Arguments Raise {A} e.

Definition is_digit (c : ascii) : bool :=
  let n := nat_of_ascii c in (48 <=? n)%nat && (n <=? 57)%nat.

Fixpoint all_digits (s : string) : bool :=
  match s with
  | EmptyString => true
  | String c rest => is_digit c && all_digits rest
  end.

(** Value of a run of decimal digits, most significant first. *)
Fixpoint digits_value (acc : Z) (s : string) : Z :=
  match s with
  | EmptyString => acc
  | String c rest => digits_value (10 * acc + (Z.of_nat (nat_of_ascii c) - 48)) rest
  end.

(** Splits at the first ['.']: the part before it and, when there is a
    dot, the part after it. *)
Fixpoint split_dot (s : string) : string * option string :=
  match s with
  | EmptyString => (EmptyString, None)
  | String c rest =>
      if Ascii.eqb c "."%char then (EmptyString, Some rest)
      else let '(a, b) := split_dot rest in (String c a, b)
  end.

(** [float(cell)] on the tokens the scanner builds, which consist of the
    characters [-.0123456789] only: an optional leading minus, then digits
    with at most one dot and at least one digit.  The result is the exact
    decimal value; rounding to binary64 and the sign of zero are not
    modelled.  [None] stands for the [ValueError] Python raises. *)
Definition float (token : string) : option Q :=
  let '(neg, body) :=
    match token with
    | String "-"%char r => (true, r)
    | _ => (false, token)
    end in
  let '(ip, fp) := split_dot body in
  let fr := default EmptyString fp in
  if all_digits ip && all_digits fr && negb (String.eqb (ip ++ fr) EmptyString)
  then
    let m := digits_value 0 (ip ++ fr) in
    Some (Qred (Qmake (if neg then - m else m)
                      (Z.to_pos (10 ^ Z.of_nat (String.length fr)))))
  else None.

(** The body of the inner [for i in range(len(line))] loop, run on the
    suffix [line[i:]].  [cur] is the variable [cell], [cells] the row so
    far.  At the end of the line the loop just stops: [cur] is not
    appended. *)
Fixpoint scan (suffix : string) (cur : string) (cells : list cell)
  : result (list cell) :=
  match suffix with
  | EmptyString => Ok cells
  | String c rest =>
      if char_in c (String SP (String TAB EmptyString)) then
        if negb (String.eqb cur EmptyString) then
          match float cur with
          | Some q => scan rest EmptyString (cells ++ [Num q])
          | None => Raise (ValueError cur)
          end
        else scan rest EmptyString cells
      else if char_in c "-.1234567890" then
        scan rest (cur ++ String c EmptyString) cells
      else if isalpha c then
        Ok (cells ++ [Label (rstrip NL (strip SP suffix))])
      else scan rest cur cells
  end.

(** The test [line[0] == '#' or line.lstrip(' ') == '\n'].  [readlines]
    never yields an empty line, so [line[0]] exists. *)
Definition skipped (line : string) : bool :=
  match line with
  | String c _ => Ascii.eqb c "#"%char
  | EmptyString => false
  end
  || String.eqb (lstrip SP line) (String NL EmptyString).

(** The outer loop over the lines; [rows] is the accumulator. *)
Fixpoint read_lines (ls : list string) (rows : list (list cell))
  : result (list (list cell)) :=
  match ls with
  | [] => Ok rows
  | line :: ls' =>
      if skipped line then read_lines ls' rows
      else match scan line EmptyString [] with
           | Ok cells => read_lines ls' (rows ++ [cells])
           | Raise e => Raise e
           end
  end.

Definition readTxtTable (text : string) : result (list (list cell)) :=
  read_lines (readlines text) [].

(** A newline, as a string. *)
Definition LF : string := String NL EmptyString.

(** A run of [n] spaces. *)
Fixpoint spaces (n : nat) : string :=
  match n with
  | O => EmptyString
  | S n' => String SP (spaces n')
  end.

(** The text ["1.0 2.0\n# comment\n\n3.0 4.0 extra\n"]. *)
Definition example_text : string :=
  "1.0 2.0" ++ LF ++ "# comment" ++ LF ++ LF ++ "3.0 4.0 extra" ++ LF.

(** The same text with a space closing the first line. *)
Definition example_text_trailing_space : string :=
  "1.0 2.0 " ++ LF ++ "# comment" ++ LF ++ LF ++ "3.0 4.0 extra" ++ LF.

End Reader.

(** ** Python dictionaries with integer keys, in insertion order *)

Module PyDict.
Section Dict.
Context {V : Type}.

(** [d.get(k)] / [d[k]]. *)
Fixpoint dict_get (k : Z) (d : list (Z * V)) : option V :=
  match d with
  | [] => None
  | (k', v) :: d' => if Z.eqb k k' then Some v else dict_get k d'
  end.

(** [k in d]. *)
Definition dict_mem (k : Z) (d : list (Z * V)) : bool :=
  match dict_get k d with Some _ => true | None => false end.

(** [d[k] = v]: a present key keeps its place, a new key goes last. *)
Fixpoint dict_set (k : Z) (v : V) (d : list (Z * V)) : list (Z * V) :=
  match d with
  | [] => [(k, v)]
  | (k', v') :: d' =>
      if Z.eqb k k' then (k, v) :: d' else (k', v') :: dict_set k v d'
  end.

(** [d.pop(k)] for a present key (the entry is dropped). *)
Fixpoint dict_pop (k : Z) (d : list (Z * V)) : list (Z * V) :=
  match d with
  | [] => []
  | (k', v') :: d' =>
      if Z.eqb k k' then d' else (k', v') :: dict_pop k d'
  end.

Definition keys (d : list (Z * V)) : list Z := map fst d.

(** A dictionary holds each key once. *)
Definition dict_wf (d : list (Z * V)) : Prop := NoDup (keys d).
End Dict.
End PyDict.

(** ** [PlotManager] *)

Module Plot.
Import PyDict.

(** Values stored in a settings dictionary. *)
Inductive pyval : Type :=
  | VInt (z : Z)
  | VStr (s : string).

(** References to settings dictionaries. *)
Definition loc : Type := positive.

(** An entry [{'data': (x_data, y_data), 'settings': settings}] of
    [self.lines]; [settings] is a reference, the dictionary itself is in
    the heap. *)
Record line : Type := Line {
  data : list Q * list Q;
  settings : loc
}.

Inductive exn : Type :=
  | KeyError (key : string)
  | TypeError
  | FileNotFoundError (path : string)
  | UnidentifiedImageError (path : string).

(** One [axes.plot(x, y, linewidth=..., ...)] call, recorded as issued
    (matplotlib's validation of the values is not modelled). *)
Record plot_call : Type := PlotCall {
  pc_x : list Q;
  pc_y : list Q;
  linewidth : pyval;
  color : pyval;
  linestyle : pyval;
  marker : option string;
  markersize : pyval;
  markerfacecolor : pyval;
  label : string
}.

Definition image : Type := string.

(** One [axes.imshow(image, zorder=0, extent=[-180, 180, -80, 80],
    interpolation='nearest')] call. *)
Record imshow_call : Type := Imshow {
  im_image : image;
  im_zorder : Z;
  im_extent : Z * Z * Z * Z;
  im_interpolation : string
}.

Record Axes : Type := MkAxes {
  plotted : list plot_call;
  images : list imshow_call;
  xlabel : string;
  ylabel : string;
  grid : bool;
  xlim : option (Z * Z);
  ylim : option (Z * Z);
  legend : bool
}.

(** The legend lists the labels of the plotted lines, in plot order. *)
Definition legend_entries (ax : Axes) : list string := map label (plotted ax).

Record PlotManager : Type := MkPlotManager {
  axes : Axes;
  lines : list (Z * line);
  background_image : string;
  current_id : Z;
  default_settings : gmap string pyval
}.

(** A file on disk, as [imread] sees it. *)
Inductive file : Type :=
  | ImageFile (img : image)
  | CorruptFile.

(** The program state: the manager, the heap of settings dictionaries and
    the error dialogs shown so far ([messagebox.showerror]). *)
Record state : Type := MkState {
  self : PlotManager;
  heap : gmap loc (gmap string pyval);
  dialogs : list (string * exn)
}.

Definition with_axes (ax : Axes) (p : PlotManager) : PlotManager :=
  MkPlotManager ax (lines p) (background_image p) (current_id p)
                (default_settings p).
Definition with_lines (ls : list (Z * line)) (p : PlotManager) : PlotManager :=
  MkPlotManager (axes p) ls (background_image p) (current_id p)
                (default_settings p).
Definition with_background_image (b : string) (p : PlotManager) : PlotManager :=
  MkPlotManager (axes p) (lines p) b (current_id p) (default_settings p).
Definition with_current_id (n : Z) (p : PlotManager) : PlotManager :=
  MkPlotManager (axes p) (lines p) (background_image p) n
                (default_settings p).

Definition with_self (p : PlotManager) (st : state) : state :=
  MkState p (heap st) (dialogs st).
Definition with_heap (h : gmap loc (gmap string pyval)) (st : state) : state :=
  MkState (self st) h (dialogs st).
Definition with_dialogs (d : list (string * exn)) (st : state) : state :=
  MkState (self st) (heap st) d.

Definition label_prefix : string := "График".

(** The f-string [f'График:{n}']. *)
Definition label_of (n : Z) : string := label_prefix ++ ":" ++ pretty n.

Definition cleared_axes : Axes :=
  MkAxes [] [] "" "" false None None false.

(** [PlotManager.__init__]: the [label] default is computed here, once,
    from [self.current_id], which is [0] at this point. *)
Definition init_manager : PlotManager :=
  let current_id0 := 0 in
  MkPlotManager
    (MkAxes [] [] "Широта" "Долгота" true None None false)
    []
    "maps\ortophotoplan_earth_80.jpg"
    current_id0
    (<["line_width" := VInt 2]>
     (<["line_color" := VStr "blue"]>
     (<["line_style" := VStr ":"]>
     (<["marker_size" := VInt 0]>
     (<["marker_color" := VStr "red"]>
     (<["label" := VStr (label_of current_id0)]> ∅)))))).

Definition init : state := MkState init_manager ∅ [].

(** Allocation of a new dictionary object. *)
Definition alloc (d : gmap string pyval) (st : state) : loc * state :=
  let l := fresh (dom (heap st)) in
  (l, with_heap (<[l := d]> (heap st)) st).

(** The dictionary a reference points to.  Every reference a running
    program holds is allocated (see [heap_closed]). *)
Definition deref (h : gmap loc (gmap string pyval)) (l : loc)
  : gmap string pyval := default ∅ (h !! l).

(** [add_line(x_data, y_data, settings=None)]. *)
Definition add_line (x_data y_data : list Q) (settings : option loc)
    (st : state) : Z * state :=
  let '(sref, st) :=
    match settings with
    | None => alloc (default_settings (self st)) st
    | Some l => (l, st)
    end in
  let st := with_self (with_current_id (current_id (self st) + 1) (self st)) st in
  let line_id := current_id (self st) in
  let st :=
    if negb (dict_mem line_id (lines (self st))) then
      with_self
        (with_lines (dict_set line_id (Line (x_data, y_data) sref)
                              (lines (self st))) (self st)) st
    else st in
  (line_id, st).

(** [remove_line(line_id)]. *)
Definition remove_line (line_id : Z) (st : state) : bool * state :=
  if dict_mem line_id (lines (self st)) then
    (true, with_self (with_lines (dict_pop line_id (lines (self st))) (self st)) st)
  else (false, st).

(** [update_line_settings(line_id, settings)]: [dict.update] in place on
    the dictionary the line refers to. *)
Definition update_line_settings (line_id : Z) (new : gmap string pyval)
    (st : state) : bool * state :=
  match dict_get line_id (lines (self st)) with
  | Some ln =>
      (true, with_heap (<[settings ln := new ∪ deref (heap st) (settings ln)]>
                          (heap st)) st)
  | None => (false, st)
  end.

(** Computations that may raise. *)
Inductive res (A : Type) : Type :=
  | Ret (a : A)
  | Raised (e : exn).
Arguments Ret {A} a.
Arguments Raised {A} e.

#[global] Instance res_bind : MBind res := λ A B f m,
  match m with Ret a => f a | Raised e => Raised e end.

(** [d[k]] on a settings dictionary. *)
Definition getitem (d : gmap string pyval) (k : string) : res pyval :=
  match d !! k with Some v => Ret v | None => Raised (KeyError k) end.

(** [v > 0]: an integer is compared, a string is not comparable with an
    integer. *)
Definition gt_zero (v : pyval) : res bool :=
  match v with VInt z => Ret (Z.ltb 0 z) | VStr _ => Raised TypeError end.

(** The arguments of the [axes.plot] call of one loop iteration, evaluated
    left to right.  The [label] argument is built from [line_id]; the
    [label] entry of the settings is not read. *)
Definition plot_args (h : gmap loc (gmap string pyval)) (line_id : Z)
    (ln : line) : res plot_call :=
  let '(x, y) := data ln in
  let settings := deref h (settings ln) in
  lw ← getitem settings "line_width";
  c ← getitem settings "line_color";
  ls ← getitem settings "line_style";
  ms ← getitem settings "marker_size";
  big ← gt_zero ms;
  ms' ← getitem settings "marker_size";
  mc ← getitem settings "marker_color";
  Ret (PlotCall x y lw c ls (if (big : bool) then Some "o" else None) ms' mc
                (label_of line_id)).

Definition add_plot (pc : plot_call) (ax : Axes) : Axes :=
  MkAxes (plotted ax ++ [pc]) (images ax) (xlabel ax) (ylabel ax) (grid ax)
         (xlim ax) (ylim ax) (legend ax).

Definition add_image (im : imshow_call) (ax : Axes) : Axes :=
  MkAxes (plotted ax) (images ax ++ [im]) (xlabel ax) (ylabel ax) (grid ax)
         (xlim ax) (ylim ax) (legend ax).

(** The loop [for line_id, line_data in self.lines.items()]; an exception
    leaves the axes as drawn so far. *)
Fixpoint plot_all (h : gmap loc (gmap string pyval)) (ls : list (Z * line))
    (ax : Axes) : Axes * option exn :=
  match ls with
  | [] => (ax, None)
  | (line_id, ln) :: ls' =>
      match plot_args h line_id ln with
      | Ret pc => plot_all h ls' (add_plot pc ax)
      | Raised e => (ax, Some e)
      end
  end.

(** [redraw_plot()]; the first component is the exception that escapes,
    if any. *)
Definition redraw_plot (st : state) : option exn * state :=
  match plot_all (heap st) (lines (self st)) cleared_axes with
  | (ax, Some e) => (Some e, with_self (with_axes ax (self st)) st)
  | (ax, None) =>
      let ax := MkAxes (plotted ax) (images ax) "Широта" "Долгота" (grid ax)
                       (Some (-180, 180)) (Some (-80, 80)) true in
      (None, with_self (with_axes ax (self st)) st)
  end.

(** [matplotlib.pyplot.imread] on a file system [fs]. *)
Definition imread (fs : gmap string file) (path : string) : res image :=
  match fs !! path with
  | Some (ImageFile img) => Ret img
  | Some CorruptFile => Raised (UnidentifiedImageError path)
  | None => Raised (FileNotFoundError path)
  end.

(** [redraw_map(path=None)]: the path is stored before the image is
    read; an exception of the [try] block is shown in a dialog. *)
Definition redraw_map (fs : gmap string file) (path : option string)
    (st : state) : state :=
  let st :=
    match path with
    | Some p => with_self (with_background_image p (self st)) st
    | None => st
    end in
  match imread fs (background_image (self st)) with
  | Ret image =>
      with_self
        (with_axes (add_image (Imshow image 0 (-180, 180, -80, 80) "nearest")
                              (axes (self st))) (self st)) st
  | Raised e => with_dialogs (dialogs st ++ [("Ошибка", e)]) st
  end.

(** *** Sessions: sequences of calls made by a client *)

Inductive op : Type :=
  | NewDict (d : gmap string pyval)
  | AddLine (x_data y_data : list Q) (settings : option loc)
  | RemoveLine (line_id : Z)
  | UpdateLineSettings (line_id : Z) (new : gmap string pyval)
  | RedrawPlot
  | RedrawMap (path : option string).

Inductive retval : Type :=
  | RLoc (l : loc)
  | RId (line_id : Z)
  | RBool (b : bool)
  | RNone
  | RExn (e : exn).

Definition step (fs : gmap string file) (o : op) (st : state)
  : retval * state :=
  match o with
  | NewDict d => let '(l, st') := alloc d st in (RLoc l, st')
  | AddLine x y s => let '(i, st') := add_line x y s st in (RId i, st')
  | RemoveLine i => let '(b, st') := remove_line i st in (RBool b, st')
  | UpdateLineSettings i new =>
      let '(b, st') := update_line_settings i new st in (RBool b, st')
  | RedrawPlot =>
      match redraw_plot st with
      | (Some e, st') => (RExn e, st')
      | (None, st') => (RNone, st')
      end
  | RedrawMap path => (RNone, redraw_map fs path st)
  end.

Fixpoint run (fs : gmap string file) (ops : list op) (st : state)
  : list retval * state :=
  match ops with
  | [] => ([], st)
  | o :: ops' =>
      let '(r, st') := step fs o st in
      let '(rs, st'') := run fs ops' st' in
      (r :: rs, st'')
  end.

(** The ids returned by the [add_line] calls of a session, in order. *)
Fixpoint returned_ids (rs : list retval) : list Z :=
  match rs with
  | [] => []
  | RId i :: rs' => i :: returned_ids rs'
  | _ :: rs' => returned_ids rs'
  end.

(** A client passes to [add_line] only dictionaries that exist. *)
Definition op_ok (o : op) (st : state) : Prop :=
  match o with
  | AddLine _ _ (Some l) => is_Some (heap st !! l)
  | _ => True
  end.

Inductive reachable (fs : gmap string file) : state → Prop :=
  | reachable_init : reachable fs init
  | reachable_step o st :
      reachable fs st → op_ok o st → reachable fs (step fs o st).2.

(** All the calls of a session respect [op_ok]. *)
Fixpoint ops_ok (fs : gmap string file) (ops : list op) (st : state) : Prop :=
  match ops with
  | [] => True
  | o :: ops' => op_ok o st ∧ ops_ok fs ops' (step fs o st).2
  end.

(** Every settings reference of the registry is allocated. *)
Definition heap_closed (st : state) : Prop :=
  ∀ i ln, (i, ln) ∈ lines (self st) → is_Some (heap st !! settings ln).

(** What a client observes of the line [i]: its data and the contents of
    its settings dictionary. *)
Definition line_view (st : state) (i : Z)
  : option (list Q * list Q * gmap string pyval) :=
  ln ← dict_get i (lines (self st));
  Some (data ln, deref (heap st) (settings ln)).

Definition line_settings (st : state) (i : Z) : option (gmap string pyval) :=
  snd <$> line_view st i.

Definition line_data (st : state) (i : Z) : option (list Q * list Q) :=
  fst <$> line_view st i.

(** *** Sessions and statements used below *)

(** A file system that holds the default map only. *)
Definition fs_default : gmap string file :=
  {[ background_image init_manager := ImageFile "earth" ]}.

(** A client builds one settings dictionary and passes the same object to
    [add_line] twice. *)
Definition shared_session : list op :=
  [ NewDict (default_settings init_manager);
    AddLine [] [] (Some 1%positive);
    AddLine [] [] (Some 1%positive) ].

Definition shared_state : state := (run ∅ shared_session init).2.

(** Two lines added with the default settings. *)
Definition two_lines_state : state :=
  (run ∅ [AddLine [] [] None; AddLine [] [] None] init).2.

(** The value stored under [k] in the settings of the line [i]. *)
Definition setting (st : state) (i : Z) (k : string) : option pyval :=
  d ← line_settings st i; d !! k.

(** The frame statement of [update_line_settings] for the call
    [update_line_settings(i, new)] in [st], with every other line
    unchanged. *)
Definition update_frame_all_others (st : state) (i : Z)
    (new : gmap string pyval) : Prop :=
  let r := update_line_settings i new st in
  match dict_get i (lines (self st)) with
  | Some _ =>
      r.1 = true
      ∧ (∀ k v, new !! k = Some v → setting r.2 i k = Some v)
      ∧ (∀ k, new !! k = None → setting r.2 i k = setting st i k)
      ∧ line_data r.2 i = line_data st i
      ∧ (∀ j, j ≠ i → line_view r.2 j = line_view st j)
  | None => r = (false, st)
  end.

(** The reference stored for a new line: the one passed in, or the fresh
    copy of the defaults. *)
Definition new_ref (s : option loc) (st : state) : loc :=
  match s with Some l => l | None => fresh (dom (heap st)) end.

(** The counter bounds the keys, and no key occurs twice. *)
Definition bounded (st : state) : Prop :=
  Forall (λ k, k ≤ current_id (self st)) (keys (lines (self st)))
  ∧ dict_wf (lines (self st)).

End Plot.

(** ** Shapes of lines and rows *)

Module Rows.
Import PyStr Reader.

(** The characters the scanner treats as separators. *)
Definition blank (c : ascii) : bool :=
  char_in c (String SP (String TAB EmptyString)).

(** The characters the scanner accumulates into a token. *)
Definition numeric_char (c : ascii) : bool := char_in c "-.1234567890".

Fixpoint numeric (s : string) : bool :=
  match s with
  | EmptyString => true
  | String c rest => numeric_char c && numeric rest
  end.

Definition is_label (x : cell) : bool :=
  match x with Label _ => true | Num _ => false end.

(** Numbers first, then at most one label, in last position. *)
Fixpoint well_shaped (r : list cell) : bool :=
  match r with
  | [] => true
  | x :: r' =>
      match r' with
      | [] => true
      | _ :: _ => negb (is_label x) && well_shaped r'
      end
  end.

(** The text of a line: every token is followed by its separator, then
    comes [tail]. *)
Fixpoint line_text (toks : list (string * ascii)) (tail : string) : string :=
  match toks with
  | [] => tail
  | (t, b) :: ts => t +:+ String b (line_text ts tail)
  end.

(** A line closed by a newline right after the last separator. *)
Definition row_text (toks : list (string * ascii)) : string :=
  line_text toks LF.

(** A table: its lines one after the other. *)
Fixpoint table_text (rows : list (list (string * ascii))) : string :=
  match rows with
  | [] => EmptyString
  | r :: rows' => row_text r +:+ table_text rows'
  end.

Fixpoint no_newline (s : string) : bool :=
  match s with
  | EmptyString => true
  | String c rest => negb (Ascii.eqb c NL) && no_newline rest
  end.

Definition all_num (cells : list cell) : bool :=
  forallb (λ x, negb (is_label x)) cells.

(** A printed number: a non-empty token of numeric characters that
    [float] reads as [v], followed by a space or a tab. *)
Definition prints (tb : string * ascii) (v : Q) : Prop :=
  numeric tb.1 = true ∧ tb.1 ≠ EmptyString ∧ float tb.1 = Some v
  ∧ blank tb.2 = true.

(** A label starts with a letter and does not end with a newline. *)
Definition label_ok (s : string) : bool :=
  match s with
  | String c _ => isalpha c
  | EmptyString => false
  end
  && String.eqb (rstrip NL s) s.

(** A line of [readlines]: no newline, except for one that ends it; a
    line without it is not empty. *)
Definition is_line (l : string) : Prop :=
  ∃ s, no_newline s = true ∧ (l = s +:+ LF ∨ (l = s ∧ s ≠ EmptyString)).

(** The lines of a text that are not skipped. *)
Definition kept_lines (text : string) : list string :=
  List.filter (λ l, negb (skipped l)) (readlines text).

End Rows.

(** ** Sessions of the application, and what [redraw_plot] can draw *)

Module Sessions.
Import PyDict Plot.

(** The calls the application makes: [add_line] is never given
    [settings]. *)
Definition default_only (o : op) : bool :=
  match o with
  | AddLine _ _ (Some _) => false
  | _ => true
  end.

(** The settings references of the registry, in registry order. *)
Definition refs (st : state) : list loc :=
  map (λ e, settings e.2) (lines (self st)).

(** No two lines share their settings dictionary, and every one of these
    dictionaries exists. *)
Definition unshared (st : state) : Prop :=
  NoDup (refs st) ∧ ∀ l, l ∈ refs st → is_Some (heap st !! l).







(** The keys ascend in registry order and lie between [1] and the
    counter, which is not negative. *)
Definition ascending (st : state) : Prop :=
  StronglySorted Z.lt (keys (lines (self st)))
  ∧ Forall (λ k, 1 ≤ k ≤ current_id (self st)) (keys (lines (self st)))
  ∧ 0 ≤ current_id (self st).

(** [PlotApp.update_plot]: [redraw_plot()] then [redraw_map()]; an
    exception of the first call leaves the method at once.  The closing
    [canvas.draw_idle()] only schedules a repaint and is not modelled. *)
Definition update_plot (fs : gmap string file) (st : state)
  : option exn * state :=
  match redraw_plot st with
  | (Some e, st') => (Some e, st')
  | (None, st') => (None, redraw_map fs None st')
  end.

End Sessions.

(** ** Pure fragments of [PlotApp] *)

Module App.
Import PyStr Reader Plot.

(** What the [try] block of [load_line_from_file] can raise before
    [add_line] is reached: an exception of the reader, or the failure to
    unpack a row with fewer than two cells
    ([ValueError: not enough values to unpack (expected at least 2, got n)]). *)
Inductive load_error : Type :=
  | ReadError (e : error)
  | NotEnoughValues (got : nat).

(** The loop [for x, y, *_ in lines: X.append(x); Y.append(y)]. *)
Fixpoint unpack_xy (rows : list (list cell)) (X Y : list cell)
  : load_error + (list cell * list cell) :=
  match rows with
  | [] => inr (X, Y)
  | r :: rows' =>
      match r with
      | x :: y :: _ => unpack_xy rows' (X ++ [x]) (Y ++ [y])
      | _ => inl (NotEnoughValues (length r))
      end
  end.

(** The columns [load_line_from_file] passes to [add_line], from the text
    of the file. *)
Definition load_columns (text : string)
  : load_error + (list cell * list cell) :=
  match readTxtTable text with
  | Ok rows => unpack_xy rows [] []
  | Raise e => inl (ReadError e)
  end.

(** A two-column table written without a blank before the newline: on
    every line a first number, its separator, a second number and the
    newline. *)
Fixpoint bare_table (ls : list (string * ascii * string)) : string :=
  match ls with
  | [] => EmptyString
  | (t, b, last) :: ls' =>
      (t +:+ String b (last +:+ LF)) +:+ bare_table ls'
  end.

(** The entry [f"График:{line_id}"] that [update_line_selector] puts in
    the selector for a line. *)
Definition selector_entry (line_id : Z) : string :=
  label_prefix +:+ ":" +:+ pretty line_id.

(** [s.split(':')[-1]]: what follows the last colon, or all of [s] when
    it has none.  [cur] is the segment being read. *)
Fixpoint last_segment_go (s : string) (cur : string) : string :=
  match s with
  | EmptyString => cur
  | String c rest =>
      if Ascii.eqb c ":"%char then last_segment_go rest EmptyString
      else last_segment_go rest (cur +:+ String c EmptyString)
  end.

Definition last_segment (s : string) : string := last_segment_go s EmptyString.

Fixpoint colon_free (s : string) : bool :=
  match s with
  | EmptyString => true
  | String c rest => negb (Ascii.eqb c ":"%char) && colon_free rest
  end.

(** [int(s)] on the strings made of an optional sign and decimal digits;
    the other spellings Python accepts (blanks around the number,
    underscores between digits) are outside this model, which answers
    [None] for them as for the strings Python rejects. *)
Definition py_int (s : string) : option Z :=
  let '(neg, body) :=
    match s with
    | String "-"%char r => (true, r)
    | String "+"%char r => (false, r)
    | _ => (false, s)
    end in
  if all_digits body && negb (String.eqb body EmptyString)
  then Some (if neg then - digits_value 0 body else digits_value 0 body)
  else None.

(** The id [select_line] computes from the selected entry:
    [int(selection.split(':')[-1])]. *)
Definition selected_id (selection : string) : option Z :=
  py_int (last_segment selection).

End App.

(** * Properties of the reader *)

Module ReaderSpec.
Import PyStr Reader.

Lemma skipped_hash (rest : string) : skipped (String "#" rest) = true.
Proof. reflexivity. Qed.

Lemma lstrip_spaces_newline (n : nat) : lstrip SP (spaces n ++ LF) = LF.
Proof. induction n as [|n IH]; [reflexivity | exact IH]. Qed.

(** A line of spaces closed by a newline is skipped. *)
Lemma skipped_spaces_newline (n : nat) : skipped (spaces n ++ LF) = true.
Proof.
  unfold skipped. rewrite lstrip_spaces_newline.
  rewrite String.eqb_refl. apply orb_true_r.
Qed.

(** A skipped line adds no row. *)
Lemma read_lines_skipped (line : string) (ls : list string)
    (rows : list (list cell)) :
  skipped line = true → read_lines (line :: ls) rows = read_lines ls rows.
Proof. intros H. simpl. by rewrite H. Qed.

(** A number followed by a blank is kept. *)
Example readTxtTable_trailing_space :
  readTxtTable example_text_trailing_space
  = Ok [[Num 1; Num 2]; [Num 3; Num 4; Label "extra"]].
Proof. vm_compute. reflexivity. Qed.

(** C2.  On the text ["1.0 2.0\n# comment\n\n3.0 4.0 extra\n"] the
    reader returns [[1.0], [3.0, 4.0, "extra"]]: the comment line and the
    blank line are skipped and the label is captured, but the [2.0] that
    ends the first line is lost, because a number is appended only when a
    space or a tab follows it.  The rows [[1.0, 2.0], [3.0, 4.0, "extra"]]
    are not what is returned. *)
Theorem readTxtTable_example_drops_last_number :
  readTxtTable example_text = Ok [[Num 1]; [Num 3; Num 4; Label "extra"]]
  ∧ readTxtTable example_text
    ≠ Ok [[Num 1; Num 2]; [Num 3; Num 4; Label "extra"]].
Proof.
  assert (H : readTxtTable example_text
              = Ok [[Num 1]; [Num 3; Num 4; Label "extra"]])
    by (vm_compute; reflexivity).
  split; [exact H |]. rewrite H. discriminate.
Qed.

(** C8.  A blank line made of a tab and a newline is not skipped, and
    neither is a last line made of spaces without a newline: each of them
    contributes an empty row.  (Lines that start with [#] and lines of
    spaces closed by a newline are skipped, see [skipped_hash] and
    [skipped_spaces_newline].) *)
Theorem readTxtTable_blank_lines_not_all_skipped :
  readTxtTable (String TAB LF) = Ok [[]]
  ∧ readTxtTable "   " = Ok [[]]
  ∧ lstrip SP "   " = ""
  ∧ skipped "   " = false.
Proof. repeat split; vm_compute; reflexivity. Qed.

End ReaderSpec.

(** * Properties of the dictionary operations *)

Module DictFacts.
Import PyDict.
Section Facts.
Context {V : Type}.
Implicit Types (d : list (Z * V)) (k j : Z) (v : V).

Lemma dict_get_None d k : dict_get k d = None ↔ k ∉ keys d.
Proof.
  induction d as [|[k' v'] d IH]; simpl.
  - split; [intros _; apply not_elem_of_nil | done].
  - destruct (Z.eqb_spec k k') as [->|Hne].
    + split; [done | intros H; destruct H; left].
    + rewrite IH, not_elem_of_cons. tauto.
Qed.

Lemma dict_mem_false d k : dict_mem k d = false ↔ k ∉ keys d.
Proof.
  unfold dict_mem. rewrite <- dict_get_None.
  destruct (dict_get k d); split; congruence.
Qed.

Lemma dict_mem_true d k : dict_mem k d = true ↔ is_Some (dict_get k d).
Proof.
  unfold dict_mem. destruct (dict_get k d); split; try done; eauto.
Qed.

Lemma dict_set_fresh d k v :
  dict_get k d = None → dict_set k v d = d ++ [(k, v)].
Proof.
  induction d as [|[k' v'] d IH]; simpl; [done |].
  destruct (Z.eqb_spec k k'); [done |]. intros H. by rewrite IH.
Qed.

Lemma dict_get_set_eq d k v : dict_get k (dict_set k v d) = Some v.
Proof.
  induction d as [|[k' v'] d IH]; simpl.
  - by rewrite Z.eqb_refl.
  - destruct (Z.eqb_spec k k') as [->|Hne]; simpl.
    + by rewrite Z.eqb_refl.
    + destruct (Z.eqb_spec k k'); done.
Qed.

Lemma dict_get_set_ne d k j v :
  j ≠ k → dict_get j (dict_set k v d) = dict_get j d.
Proof.
  intros Hne. induction d as [|[k' v'] d IH]; simpl.
  - destruct (Z.eqb_spec j k); done.
  - destruct (Z.eqb_spec k k') as [->|Hk]; simpl.
    + destruct (Z.eqb_spec j k'); done.
    + destruct (Z.eqb_spec j k'); done.
Qed.

Lemma dict_pop_length d k :
  is_Some (dict_get k d) → S (length (dict_pop k d)) = length d.
Proof.
  induction d as [|[k' v'] d IH]; simpl.
  - intros [? ?]; done.
  - destruct (Z.eqb_spec k k'); [done |].
    intros H. simpl. by rewrite IH.
Qed.

Lemma dict_get_pop_ne d k j :
  j ≠ k → dict_get j (dict_pop k d) = dict_get j d.
Proof.
  intros Hne. induction d as [|[k' v'] d IH]; simpl; [done |].
  destruct (Z.eqb_spec k k') as [->|Hk]; simpl.
  - destruct (Z.eqb_spec j k'); done.
  - destruct (Z.eqb_spec j k'); done.
Qed.

Lemma dict_get_pop_eq d k : dict_wf d → dict_get k (dict_pop k d) = None.
Proof.
  unfold dict_wf. induction d as [|[k' v'] d IH]; simpl; [done |].
  rewrite NoDup_cons. intros [Hnotin Hnd].
  destruct (Z.eqb_spec k k') as [->|Hk]; simpl.
  - by apply dict_get_None.
  - destruct (Z.eqb_spec k k'); [done | by apply IH].
Qed.

Lemma keys_dict_pop d k j : j ∈ keys (dict_pop k d) → j ∈ keys d.
Proof.
  induction d as [|[k' v'] d IH]; simpl; [done |].
  destruct (Z.eqb_spec k k'); simpl.
  - intros H. by right.
  - rewrite !elem_of_cons. intros [->|H]; [by left | right; by apply IH].
Qed.

Lemma dict_pop_wf d k : dict_wf d → dict_wf (dict_pop k d).
Proof.
  unfold dict_wf. induction d as [|[k' v'] d IH]; simpl; [done |].
  rewrite NoDup_cons. intros [Hnotin Hnd].
  destruct (Z.eqb_spec k k'); simpl; [done |].
  apply NoDup_cons. split; [| by apply IH].
  intros H. apply Hnotin. by eapply keys_dict_pop.
Qed.

Lemma dict_get_elem_of d k v : dict_get k d = Some v → (k, v) ∈ d.
Proof.
  induction d as [|[k' v'] d IH]; simpl; [done |].
  destruct (Z.eqb_spec k k') as [->|Hk].
  - intros [= ->]. by left.
  - intros H. right. by apply IH.
Qed.
End Facts.
End DictFacts.

(** * Properties of [PlotManager] *)

Module PlotSpec.
Import PyDict DictFacts Plot.

Section Methods.
Implicit Types (st : state) (i j : Z) (fs : gmap string file).

Lemma add_line_id x y s st :
  (add_line x y s st).1 = current_id (self st) + 1.
Proof.
  unfold add_line, alloc. destruct s; simpl;
    repeat case_match; reflexivity.
Qed.

Lemma add_line_current_id x y s st :
  current_id (self (add_line x y s st).2) = current_id (self st) + 1.
Proof.
  unfold add_line, alloc. destruct s; simpl;
    repeat case_match; reflexivity.
Qed.

Lemma redraw_plot_manager st :
  let p := self (redraw_plot st).2 in
  lines p = lines (self st) ∧ current_id p = current_id (self st)
  ∧ background_image p = background_image (self st)
  ∧ default_settings p = default_settings (self st)
  ∧ heap (redraw_plot st).2 = heap st.
Proof.
  unfold redraw_plot.
  destruct (plot_all _ _ _) as [ax [e|]]; simpl; auto.
Qed.

Lemma redraw_map_manager fs path st :
  let p := self (redraw_map fs path st) in
  lines p = lines (self st) ∧ current_id p = current_id (self st)
  ∧ default_settings p = default_settings (self st)
  ∧ heap (redraw_map fs path st) = heap st.
Proof.
  unfold redraw_map. destruct path; simpl;
    destruct (imread _ _); simpl; auto.
Qed.

Lemma step_current_id fs o st :
  current_id (self st) ≤ current_id (self (step fs o st).2).
Proof.
  destruct o as [d|x y s|i|i new| |path]; simpl.
  - reflexivity.
  - pose proof (add_line_current_id x y s st) as H.
    destruct (add_line x y s st) as [i st']; simpl in *. lia.
  - unfold remove_line. destruct (@dict_mem line _ _); simpl; reflexivity.
  - unfold update_line_settings. destruct (@dict_get line _ _); simpl; reflexivity.
  - pose proof (redraw_plot_manager st) as (_ & H & _).
    destruct (redraw_plot st) as [[e|] st']; simpl in *; lia.
  - pose proof (redraw_map_manager fs path st) as (_ & H & _).
    simpl in H. lia.
Qed.

Lemma step_RId fs o st i st' :
  step fs o st = (RId i, st') →
  i = current_id (self st) + 1 ∧ current_id (self st') = i.
Proof.
  destruct o as [d|x y s|k|k new| |path]; simpl.
  - discriminate.
  - pose proof (add_line_id x y s st) as H1.
    pose proof (add_line_current_id x y s st) as H2.
    destruct (add_line x y s st) as [i0 st0]; simpl in *.
    intros [= <- <-]. lia.
  - destruct (remove_line k st); discriminate.
  - destruct (update_line_settings k new st); discriminate.
  - destruct (redraw_plot st) as [[e|] st0]; discriminate.
  - discriminate.
Qed.

(** From any state on, the ids handed out exceed the counter and grow. *)
Lemma run_returned_ids fs ops st :
  let r := run fs ops st in
  current_id (self st) ≤ current_id (self r.2)
  ∧ Forall (λ i, current_id (self st) < i ≤ current_id (self r.2))
           (returned_ids r.1)
  ∧ StronglySorted Z.lt (returned_ids r.1).
Proof.
  revert st. induction ops as [|o ops IH]; intros st; simpl.
  { split; [reflexivity | split; constructor]. }
  pose proof (step_current_id fs o st) as Hmono.
  destruct (step fs o st) as [r st1] eqn:Hstep.
  specialize (IH st1).
  destruct (run fs ops st1) as [rs st2]; simpl in *.
  destruct IH as (Hle & Hall & Hsorted).
  assert (Hweak : Forall (λ i, current_id (self st) < i
                                ≤ current_id (self st2)) (returned_ids rs)).
  { eapply Forall_impl; [exact Hall |]. simpl. intros; lia. }
  destruct r as [l|i|b| |e]; simpl;
    try (split; [lia | split; assumption]).
  apply step_RId in Hstep as [Hi Hcur].
  split; [lia |]. split.
  - constructor; [lia | exact Hweak].
  - constructor; [exact Hsorted |].
    eapply Forall_impl; [exact Hall |]. simpl. intros; lia.
Qed.
End Methods.

(** C1.  In every session that starts from a fresh manager, whatever the
    calls made between them (removals included), the ids returned by the
    successive [add_line] calls are strictly increasing, so none is
    returned twice; they are positive, and the counter never decreases. *)
Theorem add_line_ids_strictly_increasing (fs : gmap string file)
    (ops : list op) :
  let r := run fs ops init in
  StronglySorted Z.lt (returned_ids r.1)
  ∧ NoDup (returned_ids r.1)
  ∧ Forall (λ i, 0 < i ≤ current_id (self r.2)) (returned_ids r.1)
  ∧ current_id (self init) ≤ current_id (self r.2).
Proof.
  pose proof (run_returned_ids fs ops init) as (Hle & Hall & Hsorted).
  simpl in *. repeat split; try assumption.
  clear Hall Hle. induction Hsorted as [|i l Hs IH Hlt]; constructor.
  - intros Hin. rewrite Forall_forall in Hlt.
    specialize (Hlt i Hin). lia.
  - exact IH.
Qed.

Section Registry.
Implicit Types (st : state) (i j : Z) (fs : gmap string file).

Lemma add_line_lines x y s st :
  dict_mem (current_id (self st) + 1) (lines (self st)) = false →
  lines (self (add_line x y s st).2)
  = lines (self st) ++ [(current_id (self st) + 1, Line (x, y) (new_ref s st))].
Proof.
  intros Hfree. assert (Hget := Hfree).
  apply dict_mem_false, dict_get_None in Hget.
  unfold add_line, alloc. destruct s; simpl;
    rewrite Hfree; simpl; by rewrite dict_set_fresh.
Qed.


Lemma update_line_settings_manager i new st :
  self (update_line_settings i new st).2 = self st.
Proof. unfold update_line_settings. by case_match. Qed.

Lemma bounded_next_free st :
  bounded st → dict_mem (current_id (self st) + 1) (lines (self st)) = false.
Proof.
  intros [Hall _]. apply dict_mem_false. intros Hin.
  rewrite Forall_forall in Hall. specialize (Hall _ Hin). lia.
Qed.

(** Every operation keeps [bounded]. *)
Lemma step_bounded fs o st : bounded st → bounded (step fs o st).2.
Proof.
  intros Hb. pose proof (bounded_next_free st Hb) as Hfree.
  destruct Hb as [Hall Hwf].
  destruct o as [d|x y s|i|i new| |path]; simpl.
  - split; assumption.
  - pose proof (add_line_lines x y s st Hfree) as Hl.
    pose proof (add_line_current_id x y s st) as Hc.
    destruct (add_line x y s st) as [k st']; simpl in *.
    unfold bounded, dict_wf, keys. rewrite Hl, Hc, map_app. simpl. split.
    + apply Forall_app. split.
      * eapply Forall_impl; [exact Hall |]. simpl. intros; lia.
      * repeat constructor. lia.
    + apply NoDup_app. split; [exact Hwf |]. split.
      * intros k' Hin Hk'. apply list_elem_of_singleton in Hk'. subst k'.
        rewrite Forall_forall in Hall. specialize (Hall _ Hin). lia.
      * apply NoDup_singleton.
  - unfold remove_line.
    destruct (dict_mem i (lines (self st))); [simpl | by split].
    split; [| by apply dict_pop_wf].
    rewrite Forall_forall in *. intros k Hk. simpl in *.
    apply Hall. by eapply keys_dict_pop.
  - pose proof (update_line_settings_manager i new st) as H.
    destruct (update_line_settings i new st) as [b st']; simpl in *.
    unfold bounded. rewrite H. split; assumption.
  - pose proof (redraw_plot_manager st) as (Hl & Hc & _).
    destruct (redraw_plot st) as [[e|] st']; simpl in *;
      unfold bounded; rewrite Hl, Hc; split; assumption.
  - pose proof (redraw_map_manager fs path st) as (Hl & Hc & _).
    simpl in *. unfold bounded. rewrite Hl, Hc. split; assumption.
Qed.

Lemma reachable_bounded fs st : reachable fs st → bounded st.
Proof.
  induction 1 as [|o st _ IH _].
  - split; [constructor | apply NoDup_nil_2].
  - by apply step_bounded.
Qed.
End Registry.

(** C9.  In every reachable state the counter is at least every id of the
    registry.  Hence the next id is never present, the membership test of
    [add_line] lets the insertion through, and every [add_line] call
    returns that id and leaves a registry with exactly one entry more,
    which maps the id to the new line. *)
Theorem current_id_bounds_registry (fs : gmap string file) (st : state) :
  reachable fs st →
  Forall (λ k, k ≤ current_id (self st)) (keys (lines (self st)))
  ∧ dict_mem (current_id (self st) + 1) (lines (self st)) = false
  ∧ ∀ x y s,
      let r := add_line x y s st in
      r.1 = current_id (self st) + 1
      ∧ length (lines (self r.2)) = S (length (lines (self st)))
      ∧ dict_get r.1 (lines (self r.2)) = Some (Line (x, y) (new_ref s st))
      ∧ ∀ j, j ≠ r.1 →
             dict_get j (lines (self r.2)) = dict_get j (lines (self st)).
Proof.
  intros Hr. apply reachable_bounded in Hr.
  pose proof (bounded_next_free st Hr) as Hfree.
  destruct Hr as [Hall Hwf].
  split; [exact Hall |]. split; [exact Hfree |].
  intros x y s. simpl.
  rewrite add_line_id, (add_line_lines x y s st Hfree).
  assert (Hset : lines (self st)
                 ++ [(current_id (self st) + 1, Line (x, y) (new_ref s st))]
                 = dict_set (current_id (self st) + 1)
                            (Line (x, y) (new_ref s st)) (lines (self st))).
  { symmetry. apply dict_set_fresh. by apply dict_get_None, dict_mem_false. }
  split; [reflexivity |]. split.
  - rewrite length_app. simpl. lia.
  - rewrite Hset. split; [apply dict_get_set_eq |].
    intros j Hj. by apply dict_get_set_ne.
Qed.

Lemma reachable_run (fs : gmap string file) (ops : list op) (st : state) :
  reachable fs st → ops_ok fs ops st → reachable fs (run fs ops st).2.
Proof.
  revert st. induction ops as [|o ops IH]; intros st Hr Hok; simpl in *.
  - exact Hr.
  - destruct Hok as [Ho Hok].
    pose proof (reachable_step fs o st Hr Ho) as Hr'.
    destruct (step fs o st) as [r st1]; simpl in *.
    specialize (IH st1 Hr' Hok).
    destruct (run fs ops st1) as [rs st2]; exact IH.
Qed.

Lemma two_lines_state_reachable : reachable ∅ two_lines_state.
Proof.
  apply reachable_run; [apply reachable_init |].
  simpl. tauto.
Qed.

Lemma current_id_bounds_registry_witness :
  reachable ∅ two_lines_state
  ∧ Forall (λ k, k ≤ 2) (keys (lines (self two_lines_state)))
  ∧ (add_line [] [] None two_lines_state).1 = 3.
Proof.
  split; [exact two_lines_state_reachable |].
  destruct (current_id_bounds_registry ∅ two_lines_state
              two_lines_state_reachable) as (Hall & _ & Hadd).
  split; [exact Hall |].
  destruct (Hadd [] [] None) as (Hid & _). exact Hid.
Defined.

(** C7.  [remove_line(i)] on a registry that holds [i] returns [True],
    leaves a registry with one entry less in which [i] is absent and every
    other id is bound as before; on a registry that does not hold [i] it
    returns [False] and the state is unchanged.  The function is total:
    there is no input on which it raises. *)
Theorem remove_line_spec (st : state) (i : Z) :
  dict_wf (lines (self st)) →
  let r := remove_line i st in
  (is_Some (dict_get i (lines (self st))) →
     r.1 = true
     ∧ S (length (lines (self r.2))) = length (lines (self st))
     ∧ dict_get i (lines (self r.2)) = None
     ∧ ∀ j, j ≠ i →
            dict_get j (lines (self r.2)) = dict_get j (lines (self st)))
  ∧ (dict_get i (lines (self st)) = None → r = (false, st)).
Proof.
  intros Hwf. unfold remove_line, dict_mem. simpl. split.
  - intros Hsome. pose proof Hsome as [ln Hln]. rewrite Hln. simpl.
    split; [reflexivity |]. split; [by apply dict_pop_length |].
    split; [by apply dict_get_pop_eq |].
    intros j Hj. by apply dict_get_pop_ne.
  - intros Hnone. by rewrite Hnone.
Qed.

Lemma two_lines_state_wf : dict_wf (lines (self two_lines_state)).
Proof. apply (reachable_bounded ∅), two_lines_state_reachable. Qed.

Lemma remove_line_spec_witness :
  dict_wf (lines (self two_lines_state))
  ∧ is_Some (dict_get 1 (lines (self two_lines_state)))
  ∧ (remove_line 1 two_lines_state).1 = true
  ∧ dict_get 1 (lines (self (remove_line 1 two_lines_state).2)) = None
  ∧ dict_get 7 (lines (self two_lines_state)) = None
  ∧ remove_line 7 two_lines_state = (false, two_lines_state).
Proof.
  assert (Hsome : is_Some (dict_get 1 (lines (self two_lines_state))))
    by (vm_compute; eauto).
  assert (Hnone : dict_get 7 (lines (self two_lines_state)) = None)
    by (vm_compute; reflexivity).
  split; [exact two_lines_state_wf |]. split; [exact Hsome |].
  destruct (remove_line_spec two_lines_state 1 two_lines_state_wf)
    as [Hpresent _].
  destruct (remove_line_spec two_lines_state 7 two_lines_state_wf)
    as [_ Habsent].
  destruct (Hpresent Hsome) as (Htrue & _ & Hgone & _).
  split; [exact Htrue |]. split; [exact Hgone |].
  split; [exact Hnone | exact (Habsent Hnone)].
Defined.

Section Settings.
Implicit Types (st : state) (i j : Z) (new : gmap string pyval).

Lemma deref_insert_eq (h : gmap loc (gmap string pyval)) l d :
  deref (<[l := d]> h) l = d.
Proof. unfold deref. by rewrite lookup_insert_eq. Qed.

Lemma deref_insert_ne (h : gmap loc (gmap string pyval)) l l' d :
  l ≠ l' → deref (<[l := d]> h) l' = deref h l'.
Proof. intros Hne. unfold deref. by rewrite lookup_insert_ne. Qed.

Lemma update_line_settings_present i new st ln :
  dict_get i (lines (self st)) = Some ln →
  update_line_settings i new st
  = (true, with_heap (<[settings ln := new ∪ deref (heap st) (settings ln)]>
                        (heap st)) st).
Proof. intros H. unfold update_line_settings. by rewrite H. Qed.

Lemma update_line_settings_absent i new st :
  dict_get i (lines (self st)) = None →
  update_line_settings i new st = (false, st).
Proof. intros H. unfold update_line_settings. by rewrite H. Qed.

(** The settings of the updated line after the call. *)
Lemma update_line_settings_merged i new st ln :
  dict_get i (lines (self st)) = Some ln →
  line_settings (update_line_settings i new st).2 i
  = Some (new ∪ deref (heap st) (settings ln)).
Proof.
  intros H. rewrite (update_line_settings_present _ _ _ _ H).
  unfold line_settings, line_view. simpl. rewrite H. simpl.
  by rewrite deref_insert_eq.
Qed.

Lemma line_settings_present i st ln :
  dict_get i (lines (self st)) = Some ln →
  line_settings st i = Some (deref (heap st) (settings ln)).
Proof. intros H. unfold line_settings, line_view. by rewrite H. Qed.

(** The data of every line survives the call. *)
Lemma update_line_settings_data i j new st :
  line_data (update_line_settings i new st).2 j = line_data st j.
Proof.
  unfold update_line_settings, line_data, line_view.
  destruct (dict_get i (lines (self st))); simpl; [| reflexivity].
  by destruct (dict_get j (lines (self st))).
Qed.
End Settings.

(** C10.  When the registry holds [i], [update_line_settings(i, new)]
    returns [True] and afterwards the settings of the line hold [new[k]]
    under every key [k] of [new], whatever the key: a key outside the six
    settings fields is stored like any other. *)
Theorem update_line_settings_stores_every_key (st : state) (i : Z)
    (new : gmap string pyval) :
  is_Some (dict_get i (lines (self st))) →
  let r := update_line_settings i new st in
  r.1 = true ∧ ∀ k v, new !! k = Some v → setting r.2 i k = Some v.
Proof.
  intros [ln Hln]. simpl. split.
  - by rewrite (update_line_settings_present _ _ _ _ Hln).
  - intros k v Hk. unfold setting.
    rewrite (update_line_settings_merged _ _ _ _ Hln). simpl.
    by apply lookup_union_Some_l.
Qed.

Lemma update_line_settings_stores_every_key_witness :
  is_Some (dict_get 1 (lines (self two_lines_state)))
  ∧ setting (update_line_settings 1 {[ "zorder" := VInt 7 ]}
                                  two_lines_state).2 1 "zorder"
    = Some (VInt 7).
Proof.
  assert (Hsome : is_Some (dict_get 1 (lines (self two_lines_state))))
    by (vm_compute; eauto).
  split; [exact Hsome |].
  destruct (update_line_settings_stores_every_key
              two_lines_state 1 {[ "zorder" := VInt 7 ]} Hsome) as [_ Hkeys].
  apply Hkeys. apply lookup_singleton_eq.
Defined.

(** C6, as stated, fails on a registry in which two lines were created
    with the same settings object: updating line [1] also changes what
    line [2] shows.  The registry is reachable through the methods. *)
Lemma update_frame_all_others_counterexample :
  reachable ∅ shared_state
  ∧ ¬ update_frame_all_others shared_state 1 {[ "line_width" := VInt 5 ]}.
Proof.
  split.
  - apply reachable_run; [apply reachable_init |].
    simpl. repeat split; vm_compute; eauto.
  - unfold update_frame_all_others.
    assert (Hget : dict_get 1 (lines (self shared_state))
                   = Some (Line ([], []) 1%positive))
      by (vm_compute; reflexivity).
    rewrite Hget. intros (_ & _ & _ & _ & Hothers).
    specialize (Hothers 2 ltac:(lia)).
    apply (f_equal (λ v, d ← snd <$> v; d !! "line_width")) in Hothers.
    vm_compute in Hothers. discriminate.
Qed.

(** C6, amended.  When the registry holds [i], the call
    [update_line_settings(i, new)] returns [True]; afterwards the settings
    of line [i] hold [new[k]] under every key [k] of [new] and their prior
    value under every other key; the data of every line and the registry
    itself (ids, order, references) are unchanged; and every other line
    whose settings are a different dictionary object shows exactly what
    it showed before.  When the registry does not hold [i], the call
    returns [False] and the state is unchanged. *)
Theorem update_line_settings_frame (st : state) (i : Z)
    (new : gmap string pyval) :
  let r := update_line_settings i new st in
  (∀ ln, dict_get i (lines (self st)) = Some ln →
     r.1 = true
     ∧ (∀ k v, new !! k = Some v → setting r.2 i k = Some v)
     ∧ (∀ k, new !! k = None → setting r.2 i k = setting st i k)
     ∧ (∀ j, line_data r.2 j = line_data st j)
     ∧ self r.2 = self st
     ∧ (∀ j ln', dict_get j (lines (self st)) = Some ln' →
                 settings ln' ≠ settings ln →
                 line_view r.2 j = line_view st j)
     ∧ (∀ j, dict_get j (lines (self st)) = None → line_view r.2 j = None))
  ∧ (dict_get i (lines (self st)) = None → r = (false, st)).
Proof.
  simpl. split; [| apply update_line_settings_absent].
  intros ln Hln.
  split; [by rewrite (update_line_settings_present _ _ _ _ Hln) |].
  split; [| split; [| split; [| split; [| split]]]].
  - intros k v Hk. unfold setting.
    rewrite (update_line_settings_merged _ _ _ _ Hln). simpl.
    by apply lookup_union_Some_l.
  - intros k Hk. unfold setting.
    rewrite (update_line_settings_merged _ _ _ _ Hln).
    rewrite (line_settings_present _ _ _ Hln). simpl.
    by rewrite lookup_union_r.
  - intros j. apply update_line_settings_data.
  - apply update_line_settings_manager.
  - intros j ln' Hj Hne.
    rewrite (update_line_settings_present _ _ _ _ Hln).
    unfold line_view. simpl. rewrite Hj. simpl.
    rewrite deref_insert_ne; [reflexivity | congruence].
  - intros j Hj. rewrite (update_line_settings_present _ _ _ _ Hln).
    unfold line_view. simpl. by rewrite Hj.
Qed.

Lemma update_line_settings_frame_witness :
  dict_get 1 (lines (self two_lines_state)) = Some (Line ([], []) 1%positive)
  ∧ dict_get 2 (lines (self two_lines_state)) = Some (Line ([], []) 2%positive)
  ∧ setting (update_line_settings 1 {[ "line_width" := VInt 5 ]}
                                  two_lines_state).2 1 "line_width"
    = Some (VInt 5)
  ∧ setting (update_line_settings 1 {[ "line_width" := VInt 5 ]}
                                  two_lines_state).2 1 "line_color"
    = setting two_lines_state 1 "line_color"
  ∧ line_view (update_line_settings 1 {[ "line_width" := VInt 5 ]}
                                    two_lines_state).2 2
    = line_view two_lines_state 2
  ∧ dict_get 9 (lines (self two_lines_state)) = None
  ∧ update_line_settings 9 {[ "line_width" := VInt 5 ]} two_lines_state
    = (false, two_lines_state).
Proof.
  assert (H1 : dict_get 1 (lines (self two_lines_state))
               = Some (Line ([], []) 1%positive)) by (vm_compute; reflexivity).
  assert (H2 : dict_get 2 (lines (self two_lines_state))
               = Some (Line ([], []) 2%positive)) by (vm_compute; reflexivity).
  assert (H9 : dict_get 9 (lines (self two_lines_state)) = None)
    by (vm_compute; reflexivity).
  destruct (update_line_settings_frame
              two_lines_state 1 {[ "line_width" := VInt 5 ]}) as [Hpresent _].
  destruct (update_line_settings_frame
              two_lines_state 9 {[ "line_width" := VInt 5 ]}) as [_ Habsent].
  destruct (Hpresent _ H1) as (_ & Hnew & Hold & _ & _ & Hother & _).
  split; [exact H1 |]. split; [exact H2 |].
  split; [apply Hnew, lookup_singleton_eq |].
  split; [apply Hold; by apply lookup_singleton_ne |].
  split; [apply (Hother 2 _ H2); simpl; discriminate |].
  split; [exact H9 | exact (Habsent H9)].
Defined.

Section Defaults.
Implicit Types (st : state) (fs : gmap string file).



End Defaults.

(** C5.  With [settings] omitted, the line gets the defaults
    [line_width=2], [line_color='blue'], [line_style=':'],
    [marker_size=0], [marker_color='red'], and the label that [__init__]
    built from the counter when it was [0]: the second line of a fresh
    manager has id [2] and the label of id [0], not one derived from its
    own id; the first line has the same label. *)
Theorem add_line_default_label_is_fixed :
  let r1 := add_line [] [] None init in
  let r2 := add_line [] [] None r1.2 in
  r1.1 = 1 ∧ r2.1 = 2
  ∧ setting r2.2 2 "line_width" = Some (VInt 2)
  ∧ setting r2.2 2 "line_color" = Some (VStr "blue")
  ∧ setting r2.2 2 "line_style" = Some (VStr ":")
  ∧ setting r2.2 2 "marker_size" = Some (VInt 0)
  ∧ setting r2.2 2 "marker_color" = Some (VStr "red")
  ∧ setting r2.2 2 "label" = Some (VStr (label_of 0))
  ∧ setting r2.2 1 "label" = Some (VStr (label_of 0))
  ∧ setting r2.2 2 "label" ≠ Some (VStr (label_of 2)).
Proof.
  simpl. repeat split; try (vm_compute; reflexivity).
  vm_compute. discriminate.
Qed.

Section Redraw.
Implicit Types (st : state) (fs : gmap string file).

Lemma plot_args_label h i ln pc :
  plot_args h i ln = Ret pc → label pc = label_of i.
Proof.
  unfold plot_args, mbind, res_bind. destruct (data ln) as [x y].
  repeat case_match; try discriminate; by intros [= <-].
Qed.

Lemma plot_all_labels h ls ax ax' :
  plot_all h ls ax = (ax', None) →
  legend_entries ax' = legend_entries ax ++ map label_of (keys ls).
Proof.
  revert ax. induction ls as [|[i ln] ls IH]; intros ax; simpl.
  - intros [= <-]. by rewrite app_nil_r.
  - destruct (plot_args h i ln) as [pc|e] eqn:Hpc; [| discriminate].
    intros H. rewrite (IH _ H). unfold legend_entries, add_plot. simpl.
    rewrite map_app. simpl. rewrite (plot_args_label _ _ _ _ Hpc).
    by rewrite <- app_assoc.
Qed.

(** X25.  A redraw that completes labels every line with the prefix and
    its id, in registry order; the [label] entries of the settings play no
    part. *)
Lemma redraw_plot_legend st :
  (redraw_plot st).1 = None →
  legend_entries (axes (self (redraw_plot st).2))
  = map label_of (keys (lines (self st))).
Proof.
  unfold redraw_plot.
  destruct (plot_all _ _ _) as [ax [e|]] eqn:Hall; simpl; [discriminate |].
  intros _. apply plot_all_labels in Hall. exact Hall.
Qed.

(** A failed load: the new path is kept, the axes are untouched and the
    exception is shown. *)
Lemma redraw_map_failure fs p e st :
  imread fs p = Raised e →
  redraw_map fs (Some p) st
  = with_dialogs (dialogs st ++ [("Ошибка", e)])
      (with_self (with_background_image p (self st)) st).
Proof. intros H. unfold redraw_map. simpl. by rewrite H. Qed.
End Redraw.

(** C4.  A line whose settings hold the explicit label ["Orbit A"]
    (stored by [update_line_settings]) is drawn with the legend entry
    built from the prefix and its id: the stored label does not reach the
    legend. *)
Theorem redraw_plot_legend_ignores_stored_label :
  let st1 := (add_line [] [] None init).2 in
  let st2 := (update_line_settings 1 {[ "label" := VStr "Orbit A" ]} st1).2 in
  let r := redraw_plot st2 in
  setting st2 1 "label" = Some (VStr "Orbit A")
  ∧ r.1 = None
  ∧ legend_entries (axes (self r.2)) = [label_of 1]
  ∧ legend_entries (axes (self r.2)) ≠ ["Orbit A"].
Proof.
  simpl. repeat split; try (vm_compute; reflexivity).
  vm_compute. discriminate.
Qed.

(** C3.  With the default map shown, [redraw_map] on a missing file shows
    the error in a dialog and leaves the axes as they were, but the
    manager now refers to the missing file instead of the previous map.
    The next [redraw_plot] followed by [redraw_map()] (what the
    application runs after every change) then clears the axes, fails to
    load again and leaves no background at all. *)
Theorem redraw_map_failed_load_replaces_path :
  let st0 := redraw_map fs_default None init in
  let st1 := redraw_map fs_default (Some "missing.png") st0 in
  let st2 := redraw_map fs_default None (redraw_plot st1).2 in
  images (axes (self st0)) = [Imshow "earth" 0 (-180, 180, -80, 80) "nearest"]
  ∧ dialogs st0 = []
  ∧ dialogs st1 = [("Ошибка", FileNotFoundError "missing.png")]
  ∧ axes (self st1) = axes (self st0)
  ∧ background_image (self st1) = "missing.png"
  ∧ background_image (self st1) ≠ background_image (self st0)
  ∧ images (axes (self st2)) = []
  ∧ dialogs st2 = [("Ошибка", FileNotFoundError "missing.png");
                   ("Ошибка", FileNotFoundError "missing.png")].
Proof.
  simpl. repeat split; try (vm_compute; reflexivity).
  vm_compute. discriminate.
Qed.

End PlotSpec.


(** * More properties of the reader *)

Module RowsSpec.
Import PyStr Reader Rows.

Lemma append_cons (x : ascii) (a b : string) :
  String x a +:+ b = String x (a +:+ b).
Proof. reflexivity. Qed.

Lemma append_nil_l (a : string) : "" +:+ a = a.
Proof. reflexivity. Qed.

Lemma append_assoc (a b c : string) : (a +:+ b) +:+ c = a +:+ (b +:+ c).
Proof.
  induction a as [|x a' IH]; [reflexivity |].
  by rewrite !append_cons, IH.
Qed.

Lemma append_nil_r (a : string) : a +:+ "" = a.
Proof.
  induction a as [|x a' IH]; [reflexivity |]. by rewrite append_cons, IH.
Qed.

Lemma numeric_char_classes (c : ascii) :
  numeric_char c = true →
  blank c = false ∧ isalpha c = false ∧ c ≠ NL ∧ c ≠ "#"%char ∧ c ≠ SP.
Proof.
  destruct c as [[] [] [] [] [] [] [] []]; vm_compute; intros H;
    try discriminate H; repeat split; discriminate.
Qed.

Lemma blank_classes (c : ascii) :
  blank c = true → c ≠ NL ∧ (c = SP ∨ c = TAB).
Proof.
  destruct c as [[] [] [] [] [] [] [] []]; vm_compute; intros H;
    try discriminate H; split; try discriminate; auto.
Qed.

(** Numeric characters only extend the current token. *)
Lemma scan_numeric (tok rest cur : string) (cells : list cell) :
  numeric tok = true →
  scan (tok +:+ rest) cur cells = scan rest (cur +:+ tok) cells.
Proof.
  revert cur. induction tok as [|c tok IH]; intros cur Hn; simpl in Hn.
  - by rewrite append_nil_l, append_nil_r.
  - apply andb_prop in Hn as [Hc Hn].
    destruct (numeric_char_classes c Hc) as (Hb & _).
    unfold blank in Hb. unfold numeric_char in Hc.
    rewrite append_cons. cbn [scan]. rewrite Hb, Hc.
    rewrite (IH _ Hn). by rewrite append_assoc, append_cons, append_nil_l.
Qed.

Lemma scan_blank (b : ascii) (rest cur : string) (cells : list cell) :
  blank b = true →
  scan (String b rest) cur cells
  = if negb (String.eqb cur "") then
      match float cur with
      | Some q => scan rest "" (cells ++ [Num q])
      | None => Raise (ValueError cur)
      end
    else scan rest "" cells.
Proof. intros Hb. cbn [scan]. unfold blank in Hb. by rewrite Hb. Qed.

Lemma eqb_nonempty (t : string) : t ≠ "" → String.eqb t "" = false.
Proof. by destruct t. Qed.

(** Printed numbers are read back, in order, and the scan goes on with
    what follows them. *)
Lemma scan_line_text (toks : list (string * ascii)) (vs : list Q)
    (tail : string) (cells : list cell) :
  Forall2 prints toks vs →
  scan (line_text toks tail) "" cells = scan tail "" (cells ++ map Num vs).
Proof.
  intros H. revert cells.
  induction H as [|[t b] v toks vs (Hn & Hne & Hf & Hb) _ IH]; intros cells.
  - simpl. by rewrite app_nil_r.
  - simpl in *. rewrite scan_numeric by done. rewrite append_nil_l.
    rewrite scan_blank by done. rewrite eqb_nonempty by done. simpl.
    rewrite Hf, IH. by rewrite <- app_assoc.
Qed.

Lemma readlines_cons (c : ascii) (u : string) :
  c ≠ NL →
  readlines (String c u)
  = match readlines u with
    | [] => [String c ""]
    | l :: ls => String c l :: ls
    end.
Proof.
  intros Hc. cbn [readlines].
  destruct (Ascii.eqb_spec c NL); [done | reflexivity].
Qed.

Lemma readlines_prefix (s u l : string) (ls : list string) :
  no_newline s = true → readlines u = l :: ls →
  readlines (s +:+ u) = (s +:+ l) :: ls.
Proof.
  intros Hs Hu. induction s as [|c s IH]; [by rewrite !append_nil_l |].
  simpl in Hs. apply andb_prop in Hs as [Hc Hs].
  rewrite !append_cons, readlines_cons.
  - by rewrite (IH Hs).
  - intros ->. by rewrite Ascii.eqb_refl in Hc.
Qed.

Lemma numeric_no_newline (t : string) : numeric t = true → no_newline t = true.
Proof.
  induction t as [|c t IH]; [done |]. simpl.
  intros [Hc Ht]%andb_prop. rewrite (IH Ht), andb_true_r.
  destruct (numeric_char_classes c Hc) as (_ & _ & Hnl & _).
  by destruct (Ascii.eqb_spec c NL).
Qed.

Lemma no_newline_app (a b : string) :
  no_newline a = true → no_newline b = true → no_newline (a +:+ b) = true.
Proof.
  intros Ha Hb. induction a as [|c a IH]; [done |].
  rewrite append_cons. simpl in *.
  apply andb_prop in Ha as [Hc Ha]. by rewrite Hc, (IH Ha).
Qed.

(** A printed line is one line of the text. *)
Lemma readlines_row_text (toks : list (string * ascii)) (vs : list Q)
    (text : string) :
  Forall2 prints toks vs →
  readlines (row_text toks +:+ text) = row_text toks :: readlines text.
Proof.
  unfold row_text. induction 1 as [|[t b] v toks vs (Hn & _ & _ & Hb) _ IH].
  - reflexivity.
  - simpl in *.
    replace ((t +:+ String b (line_text toks LF)) +:+ text)
      with ((t +:+ String b "") +:+ (line_text toks LF +:+ text))
      by (by rewrite !append_assoc, !append_cons, append_nil_l).
    assert (Hs : no_newline (t +:+ String b "") = true).
    { apply no_newline_app; [by apply numeric_no_newline |].
      simpl. destruct (blank_classes b Hb) as [Hnl _].
      by destruct (Ascii.eqb_spec b NL). }
    rewrite (readlines_prefix _ _ _ _ Hs IH).
    by rewrite append_assoc, append_cons, append_nil_l.
Qed.

Lemma skipped_numeric_head (t rest : string) :
  numeric t = true → t ≠ "" → skipped (t +:+ rest) = false.
Proof.
  destruct t as [|c t]; [done |]. simpl. intros [Hc _]%andb_prop _.
  destruct (numeric_char_classes c Hc) as (_ & _ & Hnl & Hhash & Hsp).
  rewrite append_cons. unfold skipped. cbn [lstrip].
  destruct (Ascii.eqb_spec c "#"); [done |].
  destruct (Ascii.eqb_spec c SP); [done |]. simpl.
  unfold LF. cbn [String.eqb].
  by destruct (Ascii.eqb_spec c NL).
Qed.

(** The accumulator of the outer loop is a prefix of the result. *)
Lemma read_lines_acc (ls : list string) (acc : list (list cell)) :
  read_lines ls acc
  = match read_lines ls [] with
    | Ok rows => Ok (acc ++ rows)
    | Raise e => Raise e
    end.
Proof.
  revert acc. induction ls as [|l ls IH]; intros acc; simpl.
  - by rewrite app_nil_r.
  - destruct (skipped l); [apply IH |].
    destruct (scan l "" []) as [cells|e]; [| reflexivity].
    rewrite (IH (acc ++ [cells])), (IH [cells]).
    destruct (read_lines ls []); [| reflexivity].
    by rewrite <- app_assoc.
Qed.

Lemma scan_newline_end (cur : string) (cells : list cell) :
  scan LF cur cells = Ok cells.
Proof. reflexivity. Qed.

Lemma scan_row_text (toks : list (string * ascii)) (vs : list Q) :
  Forall2 prints toks vs → scan (row_text toks) "" [] = Ok (map Num vs).
Proof.
  intros H. unfold row_text.
  by rewrite (scan_line_text _ _ _ _ H), scan_newline_end.
Qed.

Lemma skipped_row_text (toks : list (string * ascii)) (vs : list Q) :
  Forall2 prints toks vs → toks ≠ [] → skipped (row_text toks) = false.
Proof.
  destruct 1 as [|[t b] v toks vs (Hn & Hne & _) _]; [done |]. intros _.
  unfold row_text. simpl. by apply skipped_numeric_head.
Qed.

Lemma readlines_table_text (rows : list (list (string * ascii)))
    (vss : list (list Q)) (text : string) :
  Forall2 (Forall2 prints) rows vss →
  readlines (table_text rows +:+ text) = map row_text rows ++ readlines text.
Proof.
  induction 1 as [|r vs rows vss Hr _ IH]; [done |].
  simpl. rewrite append_assoc, (readlines_row_text _ _ _ Hr). by rewrite IH.
Qed.

Lemma read_lines_printed (rows : list (list (string * ascii)))
    (vss : list (list Q)) (ls : list string) (acc : list (list cell)) :
  Forall2 (Forall2 prints) rows vss → Forall (λ r, r ≠ []) rows →
  read_lines (map row_text rows ++ ls) acc
  = read_lines ls (acc ++ map (map Num) vss).
Proof.
  intros H. revert acc.
  induction H as [|r vs rows vss Hr _ IH]; intros acc Hne; simpl.
  - by rewrite app_nil_r.
  - apply Forall_cons in Hne as [Hr0 Hne].
    rewrite (skipped_row_text _ _ Hr Hr0), (scan_row_text _ _ Hr).
    rewrite (IH _ Hne). by rewrite <- app_assoc.
Qed.

(** X1.  A table printed with every number followed by a space or a tab,
    every line non-empty and closed by a newline, is read back as the
    rows of its numbers, in order. *)
Theorem readTxtTable_printed_table (rows : list (list (string * ascii)))
    (vss : list (list Q)) :
  Forall2 (Forall2 prints) rows vss → Forall (λ r, r ≠ []) rows →
  readTxtTable (table_text rows) = Ok (map (map Num) vss).
Proof.
  intros H Hne. unfold readTxtTable.
  rewrite <- (append_nil_r (table_text rows)).
  rewrite (readlines_table_text _ _ _ H).
  by rewrite (read_lines_printed _ _ _ _ H Hne).
Qed.

Lemma prints_example_rows :
  Forall2 (Forall2 prints)
    [[("1.5", SP); ("-2", TAB)]; [(".25", SP)]]
    [[3 # 2; -2 # 1]; [1 # 4]]%Q.
Proof.
  repeat constructor; try discriminate; vm_compute; reflexivity.
Qed.

Lemma readTxtTable_printed_table_witness :
  readTxtTable (table_text [[("1.5", SP); ("-2", TAB)]; [(".25", SP)]])
  = Ok [[Num (3 # 2); Num (-2 # 1)]; [Num (1 # 4)]].
Proof.
  apply (readTxtTable_printed_table
           [[("1.5", SP); ("-2", TAB)]; [(".25", SP)]]
           [[3 # 2; -2 # 1]; [1 # 4]]%Q prints_example_rows).
  repeat constructor; discriminate.
Defined.

(** X2.  After any number of well-printed lines, a line that starts with
    a malformed numeric token followed by a space or a tab makes the whole
    read fail with the [ValueError] of that token: no row is returned. *)
Theorem readTxtTable_malformed_number (rows : list (list (string * ascii)))
    (vss : list (list Q)) (tok : string) (b : ascii) (tail : string) :
  Forall2 (Forall2 prints) rows vss → Forall (λ r, r ≠ []) rows →
  numeric tok = true → tok ≠ "" → float tok = None → blank b = true →
  readTxtTable (table_text rows +:+ (tok +:+ String b tail))
  = Raise (ValueError tok).
Proof.
  intros H Hne Hn Htok Hf Hb. unfold readTxtTable.
  rewrite (readlines_table_text _ _ _ H).
  destruct (blank_classes b Hb) as [Hnl _].
  assert (Hl : ∃ l ls, readlines (tok +:+ String b tail)
                       = (tok +:+ String b l) :: ls).
  { pose proof (readlines_cons b tail Hnl) as Hc.
    destruct (readlines tail) as [|l ls].
    - exists "", []. by apply readlines_prefix; [apply numeric_no_newline |].
    - exists l, ls. by apply readlines_prefix; [apply numeric_no_newline |]. }
  destruct Hl as (l & ls & ->).
  rewrite (read_lines_printed _ _ _ _ H Hne). simpl.
  rewrite (skipped_numeric_head _ _ Hn Htok).
  rewrite scan_numeric by done. rewrite append_nil_l.
  rewrite scan_blank by done. rewrite eqb_nonempty by done. simpl.
  by rewrite Hf.
Qed.

Lemma readTxtTable_malformed_number_witness :
  readTxtTable (table_text [[("1.5", SP); ("-2", TAB)]; [(".25", SP)]]
                +:+ ("1.2.3" +:+ String SP ("4" +:+ LF)))
  = Raise (ValueError "1.2.3").
Proof.
  apply (readTxtTable_malformed_number _ _ "1.2.3" SP ("4" +:+ LF)
           prints_example_rows); try reflexivity; try discriminate.
  repeat constructor; discriminate.
Defined.

Lemma line_text_app (toks : list (string * ascii)) (a b : string) :
  line_text toks (a +:+ b) = line_text toks a +:+ b.
Proof.
  induction toks as [|[t c] toks IH]; [done |].
  simpl. by rewrite IH, append_assoc, append_cons.
Qed.

Lemma line_text_no_newline (toks : list (string * ascii)) (vs : list Q)
    (tail : string) :
  Forall2 prints toks vs → no_newline tail = true →
  no_newline (line_text toks tail) = true.
Proof.
  intros H Ht. induction H as [|[t b] v toks vs (Hn & _ & _ & Hb) _ IH];
    [done |].
  simpl. apply no_newline_app; [by apply numeric_no_newline |].
  simpl. rewrite IH, andb_true_r.
  destruct (blank_classes b Hb) as [Hnl _].
  by destruct (Ascii.eqb_spec b NL).
Qed.

Lemma skipped_line_text (toks : list (string * ascii)) (vs : list Q)
    (last tail : string) :
  Forall2 prints toks vs → numeric last = true → last ≠ "" →
  skipped (line_text toks (last +:+ tail)) = false.
Proof.
  destruct 1 as [|[t b] v toks vs (Hn & Hne & _) _]; intros Hl Hlne; simpl.
  - by apply skipped_numeric_head.
  - by apply skipped_numeric_head.
Qed.

(** X3.  A numeric token that is followed directly by the end of the
    line is never appended: a line of printed numbers whose last token
    [last] touches the newline yields the row of the other numbers only,
    whatever [last] is (even a malformed token raises nothing). *)
Theorem readTxtTable_drops_number_before_newline
    (toks : list (string * ascii)) (vs : list Q) (last : string) :
  Forall2 prints toks vs → numeric last = true → last ≠ "" →
  readTxtTable (line_text toks (last +:+ LF)) = Ok [map Num vs].
Proof.
  intros H Hl Hne. unfold readTxtTable.
  assert (Hlines : readlines (line_text toks (last +:+ LF))
                   = [line_text toks (last +:+ LF)]).
  { rewrite line_text_app.
    apply (readlines_prefix _ LF LF []); [| reflexivity].
    apply (line_text_no_newline _ _ _ H). by apply numeric_no_newline. }
  rewrite Hlines. simpl.
  rewrite (skipped_line_text _ _ _ _ H Hl Hne).
  rewrite (scan_line_text _ _ _ _ H).
  rewrite scan_numeric by done. by rewrite scan_newline_end.
Qed.

Lemma readTxtTable_drops_number_before_newline_witness :
  readTxtTable (line_text [("1.5", SP); ("-2", TAB)] ("7.25" +:+ LF))
  = Ok [[Num (3 # 2); Num (-2 # 1)]].
Proof.
  apply (readTxtTable_drops_number_before_newline
           [("1.5", SP); ("-2", TAB)] [3 # 2; -2 # 1]%Q "7.25");
    try reflexivity; try discriminate.
  repeat constructor; try discriminate; vm_compute; reflexivity.
Defined.

Lemma read_lines_rows (ls : list string) (acc rows : list (list cell)) :
  read_lines ls acc = Ok rows →
  ∃ rows', rows = acc ++ rows'
    ∧ Forall2 (λ line row, scan line "" [] = Ok row)
              (List.filter (λ l, negb (skipped l)) ls) rows'.
Proof.
  revert acc. induction ls as [|l ls IH]; intros acc; simpl.
  - intros [= <-]. exists []. by rewrite app_nil_r.
  - destruct (skipped l); simpl; [apply IH |].
    destruct (scan l "" []) as [cells|e] eqn:Hscan; [| discriminate].
    intros (rows' & -> & Hall)%IH. exists (cells :: rows').
    split; [by rewrite <- app_assoc | by constructor].
Qed.

(** X4.  When the read succeeds, the rows are, in order, the scans of the
    lines that are not skipped: one row per such line, none for the
    others. *)
Theorem readTxtTable_rows_of_kept_lines (text : string)
    (rows : list (list cell)) :
  readTxtTable text = Ok rows →
  Forall2 (λ line row, scan line "" [] = Ok row) (kept_lines text) rows
  ∧ length rows = length (kept_lines text).
Proof.
  intros (rows' & -> & H)%read_lines_rows. simpl.
  split; [exact H |]. symmetry. by eapply Forall2_length.
Qed.

Lemma readTxtTable_rows_of_kept_lines_witness :
  length [[Num 1]; [Num 3; Num 4; Label "extra"]]
  = length (kept_lines example_text).
Proof.
  apply (readTxtTable_rows_of_kept_lines example_text).
  vm_compute. reflexivity.
Defined.

Lemma well_shaped_all_num (l : list cell) :
  all_num l = true → well_shaped l = true.
Proof.
  induction l as [|x l IH]; [done |]. simpl.
  intros [Hx Hl]%andb_prop. destruct l; [done |]. by rewrite Hx, IH.
Qed.

Lemma well_shaped_snoc (l : list cell) (x : cell) :
  all_num l = true → well_shaped (l ++ [x]) = true.
Proof.
  induction l as [|y l IH]; [done |]. simpl.
  intros [Hy Hl]%andb_prop. rewrite Hy, (IH Hl).
  by destruct l.
Qed.

Lemma all_num_snoc (l : list cell) (q : Q) :
  all_num l = true → all_num (l ++ [Num q]) = true.
Proof.
  unfold all_num. intros H. by rewrite forallb_app, H.
Qed.

Lemma scan_well_shaped (line cur : string) (cells r : list cell) :
  all_num cells = true → scan line cur cells = Ok r → well_shaped r = true.
Proof.
  revert cur cells. induction line as [|c line IH]; intros cur cells Hc.
  - intros [= <-]. by apply well_shaped_all_num.
  - cbn [scan]. repeat case_match; try discriminate;
      try (by apply IH); try (by apply IH, all_num_snoc).
    intros [= <-]. by apply well_shaped_snoc.
Qed.

(** X5.  Every row returned is a run of numbers followed by at most one
    label: a label is always the last cell of its row. *)
Theorem readTxtTable_rows_well_shaped (text : string)
    (rows : list (list cell)) :
  readTxtTable text = Ok rows → Forall (λ r, well_shaped r = true) rows.
Proof.
  intros (rows' & -> & H)%read_lines_rows. simpl.
  induction H as [|l r ls rs Hscan _ IH]; constructor; [| exact IH].
  by apply (scan_well_shaped l "" [] r).
Qed.

Lemma readTxtTable_rows_well_shaped_witness :
  Forall (λ r, well_shaped r = true)
         [[Num 1]; [Num 3; Num 4; Label "extra"]].
Proof.
  apply (readTxtTable_rows_well_shaped example_text).
  vm_compute. reflexivity.
Defined.

Lemma rstrip_head (ch c : ascii) (rest : string) :
  c ≠ ch → ∃ r, rstrip ch (String c rest) = String c r.
Proof.
  intros Hc. cbn [rstrip].
  destruct (rstrip ch rest); [| eauto].
  destruct (Ascii.eqb_spec c ch); [done | eauto].
Qed.

Lemma rstrip_idem (ch : ascii) (s : string) :
  rstrip ch (rstrip ch s) = rstrip ch s.
Proof.
  induction s as [|c s IH]; [done |]. cbn [rstrip].
  destruct (rstrip ch s) as [|d r] eqn:Hr.
  - destruct (Ascii.eqb_spec c ch) as [->|Hne]; [done |].
    cbn [rstrip]. by destruct (Ascii.eqb_spec c ch).
  - cbn [rstrip] in *. by rewrite IH.
Qed.

Lemma isalpha_classes (c : ascii) :
  isalpha c = true → c ≠ SP ∧ c ≠ NL.
Proof.
  destruct c as [[] [] [] [] [] [] [] []]; vm_compute; intros H;
    try discriminate H; split; discriminate.
Qed.

Lemma label_of_suffix_ok (c : ascii) (rest : string) :
  isalpha c = true → label_ok (rstrip NL (strip SP (String c rest))) = true.
Proof.
  intros Ha. destruct (isalpha_classes c Ha) as [Hsp Hnl].
  unfold strip. cbn [lstrip]. destruct (Ascii.eqb_spec c SP); [done |].
  destruct (rstrip_head SP c rest Hsp) as [r ->].
  destruct (rstrip_head NL c r Hnl) as [r' Hr'].
  unfold label_ok. rewrite rstrip_idem, String.eqb_refl, Hr'.
  by rewrite Ha.
Qed.

Lemma scan_labels (line cur : string) (cells r : list cell) :
  Forall (λ x, ∀ lbl, x = Label lbl → label_ok lbl = true) cells →
  scan line cur cells = Ok r →
  Forall (λ x, ∀ lbl, x = Label lbl → label_ok lbl = true) r.
Proof.
  revert cur cells. induction line as [|c line IH]; intros cur cells Hc.
  - by intros [= <-].
  - cbn [scan]. repeat case_match; try discriminate; try (by apply IH).
    + apply IH. apply Forall_app. split; [done |].
      constructor; [discriminate | constructor].
    + intros [= <-]. apply Forall_app. split; [done |].
      constructor; [| constructor].
      intros lbl [= <-]. by apply label_of_suffix_ok.
Qed.

(** X6.  Every label returned starts with a letter and does not end with
    a newline. *)
Theorem readTxtTable_labels (text : string) (rows : list (list cell)) :
  readTxtTable text = Ok rows →
  ∀ r lbl, r ∈ rows → Label lbl ∈ r → label_ok lbl = true.
Proof.
  intros (rows' & -> & H)%read_lines_rows r lbl Hr Hl. simpl in Hr.
  induction H as [|l r0 ls rs Hscan _ IH]; [by apply elem_of_nil in Hr |].
  apply elem_of_cons in Hr as [->|Hr]; [| by apply IH].
  pose proof (scan_labels l "" [] r0 (Forall_nil_2 _) Hscan) as Hall.
  rewrite Forall_forall in Hall. by apply (Hall _ Hl).
Qed.

Lemma readTxtTable_labels_witness : label_ok "extra" = true.
Proof.
  apply (readTxtTable_labels example_text
           [[Num 1]; [Num 3; Num 4; Label "extra"]]
           ltac:(vm_compute; reflexivity)
           [Num 3; Num 4; Label "extra"]).
  - apply elem_of_cons. right. apply elem_of_cons. by left.
  - do 2 (apply elem_of_cons; right). apply elem_of_cons. by left.
Defined.

(** X7.  [readlines] cuts the text without losing a character: the lines
    put end to end give the text back, every line is non-empty (so
    [line[0]] exists) and holds no newline except one that ends it. *)
Theorem readlines_join (text : string) :
  fold_right String.append "" (readlines text) = text
  ∧ Forall (λ l, l ≠ "" ∧ is_line l) (readlines text).
Proof.
  induction text as [|c text [IHj IHl]]; [by split |].
  cbn [readlines]. destruct (Ascii.eqb_spec c NL) as [->|Hc].
  - split; [simpl; by rewrite IHj |].
    constructor; [| exact IHl]. split; [done |].
    exists "". split; [done | by left].
  - assert (Hc' : negb (Ascii.eqb c NL) = true)
      by by destruct (Ascii.eqb_spec c NL).
    destruct (readlines text) as [|l ls].
    + simpl in IHj. subst text. split; [done |].
      constructor; [| constructor]. split; [done |].
      exists (String c ""). split; [simpl; by rewrite Hc' | by right].
    + cbn [fold_right] in *.
      split; [by rewrite append_cons, IHj |].
      apply Forall_cons in IHl as [[_ (s0 & Hs0 & Hl)] IHl].
      constructor; [| exact IHl]. split; [done |].
      exists (String c s0). split; [simpl; by rewrite Hc', Hs0 |].
      destruct Hl as [->|[-> _]]; [by left | by right].
Qed.

End RowsSpec.


(** * More properties of [PlotManager] *)

Module SessionsSpec.
Import PyDict DictFacts Plot PlotSpec Sessions.

Lemma StronglySorted_snoc (l : list Z) (x : Z) :
  StronglySorted Z.lt l → Forall (λ y, y < x) l →
  StronglySorted Z.lt (l ++ [x]).
Proof.
  induction 1 as [|y l Hs IH Hy]; intros Hall; simpl.
  - repeat constructor.
  - apply Forall_cons in Hall as [Hyx Hall]. constructor; [by apply IH |].
    apply Forall_app. split; [exact Hy | by repeat constructor].
Qed.

Lemma keys_dict_pop_sorted {V : Type} (d : list (Z * V)) (k : Z) :
  StronglySorted Z.lt (keys d) → StronglySorted Z.lt (keys (dict_pop k d)).
Proof.
  induction d as [|[k' v] d IH]; simpl; [done |].
  intros [Hs Hall]%StronglySorted_inv.
  destruct (Z.eqb_spec k k'); [done |]. simpl.
  constructor; [by apply IH |].
  rewrite Forall_forall in *. intros j Hj.
  apply Hall. by eapply keys_dict_pop.
Qed.

Lemma step_ascending (fs : gmap string file) (o : op) (st : state) :
  ascending st → ascending (step fs o st).2.
Proof.
  intros (Hs & Hall & Hpos).
  assert (Hfree : dict_mem (current_id (self st) + 1) (lines (self st))
                  = false).
  { apply dict_mem_false. intros Hin.
    rewrite Forall_forall in Hall. specialize (Hall _ Hin). lia. }
  destruct o as [d|x y s|i|i new| |path]; simpl.
  - by split.
  - pose proof (add_line_lines x y s st Hfree) as Hl.
    pose proof (add_line_current_id x y s st) as Hc.
    destruct (add_line x y s st) as [k st']; simpl in *.
    unfold ascending, keys. rewrite Hl, Hc, map_app. simpl.
    split; [| split; [| lia]].
    + apply StronglySorted_snoc; [exact Hs |].
      eapply Forall_impl; [exact Hall |]. simpl. intros; lia.
    + apply Forall_app. split.
      * eapply Forall_impl; [exact Hall |]. simpl. intros; lia.
      * repeat constructor; lia.
  - unfold remove_line.
    destruct (dict_mem i (lines (self st))); [simpl | by split].
    split; [by apply keys_dict_pop_sorted |]. split; [| exact Hpos].
    rewrite Forall_forall in *. intros k Hk. simpl in *.
    apply Hall. by eapply keys_dict_pop.
  - pose proof (update_line_settings_manager i new st) as H.
    destruct (update_line_settings i new st) as [b st']; simpl in *.
    unfold ascending. rewrite H. by split.
  - pose proof (redraw_plot_manager st) as (Hl & Hc & _).
    destruct (redraw_plot st) as [[e|] st']; simpl in *;
      unfold ascending; rewrite Hl, Hc; by split.
  - pose proof (redraw_map_manager fs path st) as (Hl & Hc & _).
    simpl in *. unfold ascending. rewrite Hl, Hc. by split.
Qed.

(** X8.  In every reachable state the ids of the registry ascend in
    registry order, which is the order in which [redraw_plot] draws the
    lines and lists them in the legend, and every id lies between [1] and
    the counter. *)
Theorem reachable_keys_ascending (fs : gmap string file) (st : state) :
  reachable fs st →
  StronglySorted Z.lt (keys (lines (self st)))
  ∧ Forall (λ k, 1 ≤ k ≤ current_id (self st)) (keys (lines (self st))).
Proof.
  intros H. cut (ascending st); [by intros (? & ? & _) |].
  induction H as [|o st _ IH _]; [| by apply step_ascending].
  split; [constructor |]. split; [constructor | done].
Qed.

Lemma reachable_keys_ascending_witness :
  StronglySorted Z.lt (keys (lines (self two_lines_state)))
  ∧ Forall (λ k, 1 ≤ k ≤ current_id (self two_lines_state))
           (keys (lines (self two_lines_state))).
Proof.
  apply (reachable_keys_ascending ∅ two_lines_state).
  apply two_lines_state_reachable.
Defined.

Lemma dict_pop_snoc {V : Type} (d : list (Z * V)) (k : Z) (v : V) :
  k ∉ keys d → dict_pop k (d ++ [(k, v)]) = d.
Proof.
  induction d as [|[k' v'] d IH]; simpl.
  - intros _. by rewrite Z.eqb_refl.
  - rewrite not_elem_of_cons. intros [Hne Hnotin].
    destruct (Z.eqb_spec k k'); [done |]. by rewrite IH.
Qed.

(** X9.  Removing the line that was just added gives back the registry
    as it was before the addition, entry for entry; only the counter
    keeps the increment, so the id is used up. *)
Theorem add_line_then_remove_line (st : state) (x y : list Q)
    (s : option loc) :
  bounded st →
  let a := add_line x y s st in
  let r := remove_line a.1 a.2 in
  r.1 = true
  ∧ lines (self r.2) = lines (self st)
  ∧ current_id (self r.2) = current_id (self st) + 1
  ∧ (add_line x y s r.2).1 = current_id (self st) + 2.
Proof.
  intros Hb. pose proof (bounded_next_free st Hb) as Hfree.
  cbv zeta. rewrite add_line_id.
  pose proof (add_line_lines x y s st Hfree) as Hl.
  pose proof (add_line_current_id x y s st) as Hc.
  unfold remove_line. rewrite Hl.
  assert (Hmem : dict_mem (current_id (self st) + 1)
                   (lines (self st)
                    ++ [(current_id (self st) + 1,
                         Line (x, y) (new_ref s st))]) = true).
  { rewrite <- (dict_set_fresh (lines (self st)))
      by by apply dict_get_None, dict_mem_false.
    apply dict_mem_true. rewrite dict_get_set_eq. eauto. }
  rewrite Hmem. simpl.
  rewrite dict_pop_snoc by by apply dict_mem_false.
  rewrite add_line_id. simpl. rewrite Hc. repeat split; lia.
Qed.

Lemma two_lines_state_bounded : bounded two_lines_state.
Proof. apply (reachable_bounded ∅), two_lines_state_reachable. Qed.

Lemma add_line_then_remove_line_witness :
  let a := add_line [] [] None two_lines_state in
  let r := remove_line a.1 a.2 in
  r.1 = true
  ∧ lines (self r.2) = lines (self two_lines_state)
  ∧ current_id (self r.2) = current_id (self two_lines_state) + 1
  ∧ (add_line [] [] None r.2).1 = current_id (self two_lines_state) + 2.
Proof.
  apply (add_line_then_remove_line two_lines_state [] [] None).
  exact two_lines_state_bounded.
Defined.

Section Unshared.
Implicit Types (st : state) (fs : gmap string file).

Lemma add_line_heap x y s st :
  heap (add_line x y s st).2
  = match s with
    | None => <[fresh (dom (heap st)) := default_settings (self st)]> (heap st)
    | Some _ => heap st
    end.
Proof.
  unfold add_line, alloc. destruct s; simpl; repeat case_match; reflexivity.
Qed.

Lemma refs_dict_pop (d : list (Z * line)) (k : Z) (l : loc) :
  l ∈ map (λ e, settings e.2) (dict_pop k d) →
  l ∈ map (λ e, settings e.2) d.
Proof.
  induction d as [|[k' v] d IH]; simpl; [done |].
  destruct (Z.eqb_spec k k'); simpl.
  - intros H. by right.
  - rewrite !elem_of_cons. intros [->|H]; [by left | right; by apply IH].
Qed.

Lemma refs_dict_pop_NoDup (d : list (Z * line)) (k : Z) :
  NoDup (map (λ e, settings e.2) d) →
  NoDup (map (λ e, settings e.2) (dict_pop k d)).
Proof.
  induction d as [|[k' v] d IH]; simpl; [done |].
  rewrite NoDup_cons. intros [Hnotin Hnd].
  destruct (Z.eqb_spec k k'); simpl; [done |].
  apply NoDup_cons. split; [| by apply IH].
  intros H. apply Hnotin. by eapply refs_dict_pop.
Qed.

Lemma fresh_not_allocated st : heap st !! fresh (dom (heap st)) = None.
Proof. apply not_elem_of_dom, is_fresh. Qed.

(** The calls of the application keep the settings unshared. *)
Lemma step_unshared fs o st :
  bounded st → unshared st → default_only o = true →
  unshared (step fs o st).2.
Proof.
  intros Hb [Hnd Halloc] Ho.
  pose proof (bounded_next_free st Hb) as Hfree.
  pose proof (fresh_not_allocated st) as Hfresh.
  destruct o as [d|x y s|i|i new| |path]; simpl.
  - split; [exact Hnd |]. intros l Hl. simpl.
    apply lookup_insert_is_Some'. right. by apply Halloc.
  - assert (Hs : s = None) by (by destruct s).
    pose proof (add_line_lines x y s st Hfree) as Hl.
    pose proof (add_line_heap x y s st) as Hh.
    destruct (add_line x y s st) as [k st']; simpl in *. subst s.
    unfold unshared, refs. rewrite Hl, Hh, map_app. simpl. split.
    + apply NoDup_app. split; [exact Hnd |]. split; [| apply NoDup_singleton].
      intros l Hin Hl'. apply list_elem_of_singleton in Hl'. subst l.
      apply Halloc in Hin as [? Hin]. congruence.
    + intros l [Hin|Hin]%elem_of_app; apply lookup_insert_is_Some'.
      * right. by apply Halloc.
      * left. apply list_elem_of_singleton in Hin. done.
  - unfold remove_line.
    destruct (dict_mem i (lines (self st))); [simpl | by split].
    unfold unshared, refs. simpl. split; [by apply refs_dict_pop_NoDup |].
    intros l Hl. apply Halloc. by eapply refs_dict_pop.
  - unfold update_line_settings.
    destruct (dict_get i (lines (self st))) as [ln|]; [simpl | by split].
    split; [exact Hnd |]. intros l Hl. simpl.
    apply lookup_insert_is_Some'. right. by apply Halloc.
  - pose proof (redraw_plot_manager st) as (Hl & _ & _ & _ & Hh).
    destruct (redraw_plot st) as [[e|] st']; simpl in *;
      unfold unshared, refs; rewrite Hl, Hh; by split.
  - pose proof (redraw_map_manager fs path st) as (Hl & _ & _ & Hh).
    simpl in *. unfold unshared, refs. rewrite Hl, Hh. by split.
Qed.

Lemma run_unshared fs ops st :
  bounded st → unshared st → forallb default_only ops = true →
  unshared (run fs ops st).2.
Proof.
  revert st. induction ops as [|o ops IH]; intros st Hb Hu Hops; [done |].
  simpl in Hops. apply andb_prop in Hops as [Ho Hops]. simpl.
  pose proof (step_bounded fs o st Hb) as Hb'.
  pose proof (step_unshared fs o st Hb Hu Ho) as Hu'.
  destruct (step fs o st) as [r st1]; simpl in *.
  specialize (IH st1 Hb' Hu' Hops).
  by destruct (run fs ops st1) as [rs st2].
Qed.

Lemma unshared_refs_differ (d : list (Z * line)) (i j : Z) (a b : line) :
  NoDup (map (λ e, settings e.2) d) →
  dict_get i d = Some a → dict_get j d = Some b → i ≠ j →
  settings a ≠ settings b.
Proof.
  induction d as [|[k v] d IH]; simpl; [done |].
  rewrite NoDup_cons. intros [Hnotin Hnd] Hi Hj Hij.
  assert (Hin : ∀ n c, dict_get n d = Some c →
                       settings c ∈ map (λ e, settings e.2) d).
  { intros n c Hc. apply dict_get_elem_of in Hc.
    apply (list_elem_of_fmap_2 (λ e : Z * line, settings e.2)) in Hc.
    exact Hc. }
  destruct (Z.eqb_spec i k) as [->|Hik], (Z.eqb_spec j k) as [->|Hjk].
  - done.
  - injection Hi as <-. intros Heq. apply Hnotin. rewrite Heq. by eapply Hin.
  - injection Hj as <-. intros Heq. apply Hnotin. rewrite <- Heq.
    by eapply Hin.
  - by apply IH.
Qed.

Lemma unshared_update_frame st i new :
  unshared st → update_frame_all_others st i new.
Proof.
  intros [Hnd _]. unfold update_frame_all_others.
  destruct (dict_get i (lines (self st))) as [ln|] eqn:Hln;
    [| by apply update_line_settings_absent].
  split; [by rewrite (update_line_settings_present _ _ _ _ Hln) |].
  split; [| split; [| split]].
  - intros k v Hk. unfold setting.
    rewrite (update_line_settings_merged _ _ _ _ Hln). simpl.
    by apply lookup_union_Some_l.
  - intros k Hk. unfold setting.
    rewrite (update_line_settings_merged _ _ _ _ Hln).
    rewrite (line_settings_present _ _ _ Hln). simpl.
    by rewrite lookup_union_r.
  - apply update_line_settings_data.
  - intros j Hj. rewrite (update_line_settings_present _ _ _ _ Hln).
    unfold line_view. simpl.
    destruct (dict_get j (lines (self st))) as [ln'|] eqn:Hln'; [| done].
    simpl. rewrite deref_insert_ne; [done |].
    by apply (unshared_refs_differ (lines (self st)) i j).
Qed.
End Unshared.

(** X10.  In a session in which [add_line] is never given [settings] (the
    only way the application calls it), no two lines share a settings
    dictionary, and [update_line_settings(i, new)] changes the listed
    fields of line [i] only: every other line shows what it showed
    before. *)
Theorem update_frame_in_default_sessions (fs : gmap string file)
    (ops : list op) (i : Z) (new : gmap string pyval) :
  forallb default_only ops = true →
  NoDup (refs (run fs ops init).2)
  ∧ update_frame_all_others (run fs ops init).2 i new.
Proof.
  intros Hops.
  assert (Hu : unshared (run fs ops init).2).
  { apply run_unshared; [| | exact Hops].
    - apply (reachable_bounded fs), reachable_init.
    - split; [constructor |]. intros l Hl. by apply elem_of_nil in Hl. }
  split; [apply Hu | by apply unshared_update_frame].
Qed.

Lemma update_frame_in_default_sessions_witness :
  NoDup (refs two_lines_state)
  ∧ update_frame_all_others two_lines_state 1 {[ "line_width" := VInt 5 ]}.
Proof.
  apply (update_frame_in_default_sessions
           ∅ [AddLine [] [] None; AddLine [] [] None] 1
           {[ "line_width" := VInt 5 ]}).
  reflexivity.
Defined.

Section Drawing.
Implicit Types (st : state) (fs : gmap string file).



(** The heap and the registry decide the outcome of [redraw_plot]; the
    axes it starts from play no part. *)
Lemma redraw_plot_from_any_axes st ax :
  redraw_plot (with_self (with_axes ax (self st)) st) = redraw_plot st.
Proof. reflexivity. Qed.
End Drawing.

(** X11.  [redraw_plot] is idempotent: a second call right after the
    first returns the same outcome and leaves exactly the same state,
    axes included.  What was on the axes before does not matter. *)
Theorem redraw_plot_idempotent (st : state) :
  redraw_plot (redraw_plot st).2 = redraw_plot st
  ∧ ∀ ax, redraw_plot (with_self (with_axes ax (self st)) st)
          = redraw_plot st.
Proof.
  split; [| intros ax; apply redraw_plot_from_any_axes].
  unfold redraw_plot at 2.
  destruct (plot_all (heap st) (lines (self st)) cleared_axes) as [ax [e|]];
    apply redraw_plot_from_any_axes.
Qed.

(** X12.  Redrawing never touches the registry: after [update_plot]
    (and so after [redraw_plot] and [redraw_map()]) the lines, their
    settings dictionaries, the counter, the defaults and the configured
    background are what they were. *)
Theorem update_plot_keeps_registry (fs : gmap string file) (st : state) :
  let st' := (update_plot fs st).2 in
  lines (self st') = lines (self st)
  ∧ heap st' = heap st
  ∧ current_id (self st') = current_id (self st)
  ∧ default_settings (self st') = default_settings (self st)
  ∧ background_image (self st') = background_image (self st)
  ∧ ∀ i, line_view st' i = line_view st i.
Proof.
  assert (H : let st' := (update_plot fs st).2 in
              lines (self st') = lines (self st)
              ∧ heap st' = heap st
              ∧ current_id (self st') = current_id (self st)
              ∧ default_settings (self st') = default_settings (self st)
              ∧ background_image (self st') = background_image (self st)).
  { unfold update_plot, redraw_plot.
    destruct (plot_all _ _ _) as [ax [e|]]; simpl; [done |].
    unfold redraw_map. simpl. by destruct (imread _ _). }
  simpl in *. destruct H as (Hl & Hh & Hc & Hd & Hb).
  repeat split; try assumption.
  intros i. unfold line_view. by rewrite Hl, Hh.
Qed.












(** X17.  Two updates of the same line in a row amount to one update
    with the second map laid over the first: same result, same state. *)
Theorem update_line_settings_twice (st : state) (i : Z)
    (m1 m2 : gmap string pyval) :
  update_line_settings i m2 (update_line_settings i m1 st).2
  = update_line_settings i (m2 ∪ m1) st.
Proof.
  destruct (dict_get i (lines (self st))) as [ln|] eqn:Hln.
  - rewrite (update_line_settings_present i m1 st ln Hln).
    rewrite (update_line_settings_present i (m2 ∪ m1) st ln Hln).
    rewrite (update_line_settings_present i m2 _ ln) by exact Hln.
    simpl. unfold with_heap. simpl.
    by rewrite deref_insert_eq, insert_insert_eq, (assoc_L (∪)).
  - by rewrite !(update_line_settings_absent i _ st Hln).
Qed.

(** X18.  Removing the same id a second time returns [False] and changes
    nothing, and a removal never changes what the other lines show. *)
Theorem remove_line_twice (st : state) (i : Z) :
  dict_wf (lines (self st)) →
  remove_line i (remove_line i st).2 = (false, (remove_line i st).2)
  ∧ ∀ j, j ≠ i → line_view (remove_line i st).2 j = line_view st j.
Proof.
  intros Hwf. unfold remove_line.
  destruct (dict_mem i (lines (self st))) eqn:Hmem; simpl.
  - split.
    + assert (Hgone : dict_mem i (dict_pop i (lines (self st))) = false).
      { unfold dict_mem. by rewrite dict_get_pop_eq. }
      by rewrite Hgone.
    + intros j Hj. unfold line_view. simpl. by rewrite dict_get_pop_ne.
  - by rewrite Hmem.
Qed.

Lemma remove_line_twice_witness :
  remove_line 1 (remove_line 1 two_lines_state).2
  = (false, (remove_line 1 two_lines_state).2)
  ∧ ∀ j, j ≠ 1 → line_view (remove_line 1 two_lines_state).2 j
                 = line_view two_lines_state j.
Proof.
  apply (remove_line_twice two_lines_state 1).
  exact two_lines_state_wf.
Defined.

Section Closed.
Implicit Types (st : state) (fs : gmap string file).

Lemma elem_of_dict_pop {V : Type} (d : list (Z * V)) (k : Z) (e : Z * V) :
  e ∈ dict_pop k d → e ∈ d.
Proof.
  induction d as [|[k' v] d IH]; simpl; [done |].
  destruct (Z.eqb_spec k k').
  - intros H. by right.
  - rewrite !elem_of_cons. intros [->|H]; [by left | right; by apply IH].
Qed.

Lemma step_heap_closed fs o st :
  bounded st → op_ok o st → heap_closed st → heap_closed (step fs o st).2.
Proof.
  intros Hb Hok Hc. pose proof (bounded_next_free st Hb) as Hfree.
  destruct o as [d|x y s|i|i new| |path]; simpl.
  - intros j ln Hin. simpl. apply lookup_insert_is_Some'. right.
    by apply (Hc j).
  - pose proof (add_line_lines x y s st Hfree) as Hl.
    pose proof (add_line_heap x y s st) as Hh.
    destruct (add_line x y s st) as [k st']; simpl in *.
    intros j ln. rewrite Hl, Hh. intros [Hin|Hin]%elem_of_app.
    + destruct s; [by apply (Hc j) |].
      apply lookup_insert_is_Some'. right. by apply (Hc j).
    + apply list_elem_of_singleton in Hin. injection Hin as -> ->. simpl.
      destruct s as [l|]; simpl; [exact Hok |].
      apply lookup_insert_is_Some'. by left.
  - unfold remove_line.
    destruct (dict_mem i (lines (self st))); [simpl | done].
    intros j ln Hin. simpl in *. apply (Hc j). by eapply elem_of_dict_pop.
  - unfold update_line_settings.
    destruct (dict_get i (lines (self st))) as [ln0|]; [simpl | done].
    intros j ln Hin. simpl in *. apply lookup_insert_is_Some'. right.
    by apply (Hc j).
  - pose proof (redraw_plot_manager st) as (Hl & _ & _ & _ & Hh).
    destruct (redraw_plot st) as [[e|] st']; simpl in *;
      intros j ln; rewrite Hl, Hh; apply Hc.
  - pose proof (redraw_map_manager fs path st) as (Hl & _ & _ & Hh).
    simpl in *. intros j ln. rewrite Hl, Hh. apply Hc.
Qed.

Lemma reachable_heap_closed fs st : reachable fs st → heap_closed st.
Proof.
  induction 1 as [|o st Hr IH Hok].
  - intros j ln Hin. by apply elem_of_nil in Hin.
  - apply step_heap_closed; [by eapply reachable_bounded | done | done].
Qed.
End Closed.

(** X19.  In a reachable state, [add_line] changes nothing of what the
    lines already in the registry show (data and settings), whether the
    settings of the new line are the copied defaults or a dictionary of
    the caller; the new line shows the data passed in. *)
Theorem add_line_keeps_other_lines (fs : gmap string file) (st : state)
    (x y : list Q) (s : option loc) :
  reachable fs st →
  let r := add_line x y s st in
  (∀ j, j ≠ r.1 → line_view r.2 j = line_view st j)
  ∧ line_data r.2 r.1 = Some (x, y).
Proof.
  intros Hr. pose proof (reachable_heap_closed fs st Hr) as Hc.
  pose proof (reachable_bounded fs st Hr) as Hb.
  pose proof (bounded_next_free st Hb) as Hfree.
  cbv zeta. rewrite add_line_id. unfold line_data, line_view.
  rewrite (add_line_lines x y s st Hfree), (add_line_heap x y s st).
  assert (Hfresh : dict_get (current_id (self st) + 1) (lines (self st))
                   = None) by by apply dict_get_None, dict_mem_false.
  rewrite <- (dict_set_fresh (lines (self st))) by done.
  split; [| by rewrite dict_get_set_eq].
  intros j Hj. rewrite dict_get_set_ne by done.
  destruct (dict_get j (lines (self st))) as [ln|] eqn:Hln; [| done].
  simpl. destruct s as [l|]; [done |].
  apply dict_get_elem_of, Hc in Hln as [d Hd].
  rewrite deref_insert_ne; [done |].
  intros Heq. pose proof (fresh_not_allocated st) as Hf. congruence.
Qed.

Lemma add_line_keeps_other_lines_witness :
  let r := add_line [1 # 2]%Q [3 # 1]%Q None two_lines_state in
  (∀ j, j ≠ r.1 → line_view r.2 j = line_view two_lines_state j)
  ∧ line_data r.2 r.1 = Some ([1 # 2]%Q, [3 # 1]%Q).
Proof.
  apply (add_line_keeps_other_lines ∅ two_lines_state).
  exact two_lines_state_reachable.
Defined.


Lemma redraw_plot_legend_witness :
  legend_entries (axes (self (redraw_plot two_lines_state).2))
  = map label_of (keys (lines (self two_lines_state))).
Proof.
  apply (redraw_plot_legend two_lines_state).
  vm_compute. reflexivity.
Defined.

End SessionsSpec.


(** * Properties of the fragments of [PlotApp] *)

Module AppSpec.
Import PyStr Reader Rows RowsSpec Plot App.

Lemma unpack_xy_spec (rows : list (list cell)) (X0 Y0 X Y : list cell) :
  unpack_xy rows X0 Y0 = inr (X, Y) →
  ∃ X' Y', X = X0 ++ X' ∧ Y = Y0 ++ Y'
    ∧ Forall2 (λ r x, r !! 0%nat = Some x) rows X'
    ∧ Forall2 (λ r y, r !! 1%nat = Some y) rows Y'.
Proof.
  revert X0 Y0. induction rows as [|r rows IH]; intros X0 Y0; simpl.
  - intros [= <- <-]. exists [], []. rewrite !app_nil_r. by repeat split.
  - destruct r as [|x [|y r]]; try discriminate.
    intros (X' & Y' & -> & -> & HX & HY)%IH.
    exists (x :: X'), (y :: Y'). rewrite <- !app_assoc.
    repeat split; by constructor.
Qed.

Lemma unpack_xy_total (rows : list (list cell)) (X0 Y0 : list cell) :
  Forall (λ r, (2 ≤ length r)%nat) rows →
  ∃ X Y, unpack_xy rows X0 Y0 = inr (X, Y).
Proof.
  intros H. revert X0 Y0.
  induction H as [|r rows Hr _ IH]; intros X0 Y0; simpl; [eauto |].
  destruct r as [|x [|y r]]; simpl in Hr; try lia. apply IH.
Qed.

(** X20.  The unpacking loop of [load_line_from_file] succeeds exactly
    when every row has at least two cells; [X] and [Y] are then the first
    and the second cells of the rows, in order, so both have one entry per
    row; further cells are ignored. *)
Theorem unpack_xy_columns (rows : list (list cell)) :
  (Forall (λ r, (2 ≤ length r)%nat) rows ↔
   ∃ X Y, unpack_xy rows [] [] = inr (X, Y))
  ∧ ∀ X Y, unpack_xy rows [] [] = inr (X, Y) →
      Forall2 (λ r x, r !! 0%nat = Some x) rows X
      ∧ Forall2 (λ r y, r !! 1%nat = Some y) rows Y
      ∧ length X = length rows ∧ length Y = length rows.
Proof.
  split; [split |].
  - apply unpack_xy_total.
  - intros (X & Y & (X' & Y' & -> & -> & HX & HY)%unpack_xy_spec).
    clear HX. induction HY as [|r y rows Y' Hy _ IH]; constructor; [| done].
    apply lookup_lt_Some in Hy. lia.
  - intros X Y (X' & Y' & -> & -> & HX & HY)%unpack_xy_spec. simpl.
    repeat split; try done.
    + symmetry. by eapply Forall2_length.
    + symmetry. by eapply Forall2_length.
Qed.

Lemma unpack_xy_nums (vss : list (list Q)) (X0 Y0 : list cell) :
  Forall (λ vs, (2 ≤ length vs)%nat) vss →
  unpack_xy (map (map Num) vss) X0 Y0
  = inr (X0 ++ map (λ vs, Num (nth 0 vs 0%Q)) vss,
         Y0 ++ map (λ vs, Num (nth 1 vs 0%Q)) vss).
Proof.
  intros H. revert X0 Y0.
  induction H as [|vs vss Hvs _ IH]; intros X0 Y0; simpl.
  - by rewrite !app_nil_r.
  - destruct vs as [|x [|y vs]]; simpl in Hvs; try lia. simpl.
    rewrite IH. by rewrite <- !app_assoc.
Qed.

(** X21.  A table printed with every number followed by a space or a
    tab, at least two numbers on every line, loads: [X] is the column of
    the first numbers and [Y] the column of the second ones; further
    columns are ignored. *)
Theorem load_columns_printed_table (rows : list (list (string * ascii)))
    (vss : list (list Q)) :
  Forall2 (Forall2 prints) rows vss →
  Forall (λ r, (2 ≤ length r)%nat) rows →
  load_columns (table_text rows)
  = inr (map (λ vs, Num (nth 0 vs 0%Q)) vss,
         map (λ vs, Num (nth 1 vs 0%Q)) vss).
Proof.
  intros H Hlen. unfold load_columns, readTxtTable.
  rewrite <- (append_nil_r (table_text rows)).
  rewrite (readlines_table_text _ _ _ H).
  rewrite (read_lines_printed _ _ _ _ H).
  - simpl. apply (unpack_xy_nums vss [] []).
    clear -H Hlen. induction H as [|r vs rows vss Hr _ IH]; [done |].
    apply Forall_cons in Hlen as [Hr2 Hlen].
    constructor; [| by apply IH].
    by rewrite <- (Forall2_length _ _ _ Hr).
  - eapply Forall_impl; [exact Hlen |]. simpl. intros r Hr ->. simpl in Hr. lia.
Qed.

Lemma load_columns_printed_table_witness :
  load_columns (table_text [[("1.5", SP); ("-2", TAB); ("9", SP)];
                            [(".25", SP); ("4", SP)]])
  = inr ([Num (3 # 2); Num (1 # 4)], [Num (-2 # 1); Num (4 # 1)]).
Proof.
  apply (load_columns_printed_table
           [[("1.5", SP); ("-2", TAB); ("9", SP)]; [(".25", SP); ("4", SP)]]
           [[3 # 2; -2 # 1; 9 # 1]; [1 # 4; 4 # 1]]%Q).
  - repeat constructor; try discriminate; vm_compute; reflexivity.
  - repeat constructor; simpl; lia.
Defined.

Lemma readlines_line (s text : string) :
  no_newline s = true →
  readlines ((s +:+ LF) +:+ text) = (s +:+ LF) :: readlines text.
Proof.
  intros Hs. rewrite append_assoc.
  apply (readlines_prefix s (LF +:+ text) LF (readlines text) Hs).
  reflexivity.
Qed.

(** A bare table reads as rows of one number each. *)
Lemma readTxtTable_bare_table (ls : list (string * ascii * string))
    (vs : list Q) (acc : list (list cell)) :
  Forall2 (λ l v, prints l.1 v ∧ numeric l.2 = true ∧ l.2 ≠ "") ls vs →
  read_lines (readlines (bare_table ls)) acc
  = Ok (acc ++ map (λ v, [Num v]) vs).
Proof.
  intros H. revert acc.
  induction H as [|[[t b] last] v ls vs (Hp & Hn & Hne) _ IH]; intros acc.
  - simpl. by rewrite app_nil_r.
  - simpl in *.
    assert (Hline : t +:+ String b (last +:+ LF)
                    = line_text [(t, b)] last +:+ LF).
    { simpl. by rewrite append_assoc, append_cons. }
    assert (Hpr : Forall2 prints [(t, b)] [v])
      by (constructor; [exact Hp | constructor]).
    rewrite Hline, readlines_line
      by (apply (line_text_no_newline _ _ _ Hpr);
          by apply numeric_no_newline).
    cbn [read_lines]. rewrite <- line_text_app.
    rewrite (skipped_line_text _ _ _ _ Hpr Hn Hne).
    rewrite (scan_line_text _ _ _ _ Hpr).
    rewrite scan_numeric by done. rewrite scan_newline_end. simpl.
    rewrite IH. by rewrite <- app_assoc.
Qed.

(** X22.  A file of two numbers per line with the newline right after
    the second number cannot be loaded: every row holds the first number
    only, so the unpacking of the first row fails for want of a second
    value. *)
Theorem load_columns_bare_table_fails (ls : list (string * ascii * string))
    (vs : list Q) :
  Forall2 (λ l v, prints l.1 v ∧ numeric l.2 = true ∧ l.2 ≠ "") ls vs →
  ls ≠ [] →
  readTxtTable (bare_table ls) = Ok (map (λ v, [Num v]) vs)
  ∧ load_columns (bare_table ls) = inl (NotEnoughValues 1).
Proof.
  intros H Hne.
  assert (Hread : readTxtTable (bare_table ls) = Ok (map (λ v, [Num v]) vs))
    by apply (readTxtTable_bare_table ls vs [] H).
  split; [exact Hread |]. unfold load_columns. rewrite Hread.
  by destruct H.
Qed.

Lemma load_columns_bare_table_fails_witness :
  readTxtTable (bare_table [("1.0", SP, "2.0"); ("3.5", TAB, "-4")])
  = Ok [[Num 1]; [Num (7 # 2)]]
  ∧ load_columns (bare_table [("1.0", SP, "2.0"); ("3.5", TAB, "-4")])
    = inl (NotEnoughValues 1).
Proof.
  apply (load_columns_bare_table_fails
           [("1.0", SP, "2.0"); ("3.5", TAB, "-4")] [1; 7 # 2]%Q).
  - repeat constructor; try discriminate; vm_compute; reflexivity.
  - discriminate.
Defined.

Section Selector.

Lemma last_segment_go_app (a b cur : string) :
  last_segment_go (a +:+ b) cur = last_segment_go b (last_segment_go a cur).
Proof.
  revert cur. induction a as [|c a IH]; intros cur; [done |].
  rewrite append_cons. cbn [last_segment_go].
  destruct (Ascii.eqb c ":"); apply IH.
Qed.

Lemma last_segment_go_colon_free (t cur : string) :
  colon_free t = true → last_segment_go t cur = cur +:+ t.
Proof.
  revert cur. induction t as [|c t IH]; intros cur; simpl.
  - by rewrite append_nil_r.
  - intros [Hc Ht]%andb_prop. apply negb_true_iff in Hc. rewrite Hc.
    rewrite (IH _ Ht). by rewrite append_assoc, append_cons, append_nil_l.
Qed.

Lemma is_digit_classes (c : ascii) :
  is_digit c = true →
  c ≠ ":"%char ∧ c ≠ "-"%char ∧ c ≠ "+"%char
  ∧ 0 ≤ Z.of_nat (nat_of_ascii c) - 48 ≤ 9.
Proof.
  destruct c as [[] [] [] [] [] [] [] []]; vm_compute; intros H;
    try discriminate H; repeat split; discriminate.
Qed.

Lemma all_digits_colon_free (s : string) :
  all_digits s = true → colon_free s = true.
Proof.
  induction s as [|c s IH]; [done |]. simpl.
  intros [Hc Hs]%andb_prop. rewrite (IH Hs), andb_true_r.
  destruct (is_digit_classes c Hc) as (Hcolon & _).
  by destruct (Ascii.eqb_spec c ":").
Qed.

Lemma digits_value_acc (s : string) (acc : Z) :
  digits_value acc s
  = acc * 10 ^ Z.of_nat (String.length s) + digits_value 0 s.
Proof.
  revert acc. induction s as [|c s IH]; intros acc.
  - simpl. lia.
  - cbn [digits_value String.length]. rewrite (IH (10 * acc + _)), (IH (10 * 0 + _)).
    rewrite Nat2Z.inj_succ, Z.pow_succ_r by lia. ring.
Qed.

Lemma pretty_N_char_digit (d : N) :
  (d < 10)%N →
  is_digit (pretty_N_char d) = true
  ∧ Z.of_nat (nat_of_ascii (pretty_N_char d)) - 48 = Z.of_N d.
Proof.
  intros Hd.
  assert (d = 0 ∨ d = 1 ∨ d = 2 ∨ d = 3 ∨ d = 4 ∨ d = 5 ∨ d = 6 ∨ d = 7
          ∨ d = 8 ∨ d = 9)%N as H by lia.
  repeat (destruct H as [->|H]; [by vm_compute |]). subst d. by vm_compute.
Qed.

(** The digits [pretty] writes, read back. *)
Lemma pretty_N_go_digits (x : N) (s : string) :
  all_digits s = true →
  all_digits (pretty_N_go x s) = true
  ∧ digits_value 0 (pretty_N_go x s)
    = Z.of_N x * 10 ^ Z.of_nat (String.length s) + digits_value 0 s.
Proof.
  revert s. induction (N.lt_wf_0 x) as [x _ IH]; intros s Hs.
  assert (x = 0 ∨ 0 < x)%N as [->|Hpos] by lia.
  - rewrite pretty_N_go_0. split; [done | simpl; lia].
  - rewrite pretty_N_go_step by done.
    assert (Hmod : (x `mod` 10 < 10)%N) by (apply N.mod_lt; lia).
    destruct (pretty_N_char_digit _ Hmod) as [Hd Hv].
    destruct (IH (x `div` 10)%N ltac:(apply N.div_lt; lia)
                 (String (pretty_N_char (x `mod` 10)) s)) as [Ha Hval].
    { simpl. by rewrite Hd, Hs. }
    split; [exact Ha |]. rewrite Hval.
    cbn [digits_value String.length]. rewrite digits_value_acc, Hv.
    rewrite Nat2Z.inj_succ, Z.pow_succ_r by lia.
    pose proof (N.div_mod x 10 ltac:(lia)) as Hdm.
    assert (Hx : Z.of_N x = 10 * Z.of_N (x `div` 10) + Z.of_N (x `mod` 10))
      by lia.
    rewrite Hx. ring.
Qed.

Lemma py_int_digits (s : string) :
  all_digits s = true → s ≠ "" → py_int s = Some (digits_value 0 s).
Proof.
  destruct s as [|c s]; [done |]. intros Hs _.
  assert (Hc : is_digit c = true).
  { cbn [all_digits] in Hs. by apply andb_prop in Hs as [Hc _]. }
  destruct (is_digit_classes c Hc) as (_ & Hm & Hp & _).
  assert (Hbody : py_int (String c s)
                  = if all_digits (String c s)
                       && negb (String.eqb (String c s) "")
                    then Some (digits_value 0 (String c s)) else None).
  { unfold py_int.
    destruct c as [[] [] [] [] [] [] [] []]; try reflexivity; done. }
  rewrite Hbody, Hs. reflexivity.
Qed.

Lemma pretty_pos_digits (p : positive) :
  all_digits (pretty_N_go (N.pos p) "") = true
  ∧ digits_value 0 (pretty_N_go (N.pos p) "") = Z.pos p
  ∧ pretty_N_go (N.pos p) "" ≠ "".
Proof.
  destruct (pretty_N_go_digits (N.pos p) "" eq_refl) as [Ha Hv].
  simpl in Hv. split; [exact Ha |]. split; [lia |].
  intros Heq. rewrite Heq in Hv. simpl in Hv. lia.
Qed.

Lemma pretty_Z_unfold (i : Z) :
  pretty i = match i with
             | Z0 => "0"
             | Zpos p => pretty_N_go (N.pos p) ""
             | Zneg p => "-" +:+ pretty_N_go (N.pos p) ""
             end.
Proof. by destruct i. Qed.

Lemma py_int_pretty (i : Z) : py_int (pretty i) = Some i.
Proof.
  rewrite pretty_Z_unfold. destruct i as [|p|p].
  - reflexivity.
  - destruct (pretty_pos_digits p) as (Ha & Hv & Hne).
    by rewrite (py_int_digits _ Ha Hne), Hv.
  - destruct (pretty_pos_digits p) as (Ha & Hv & Hne).
    rewrite append_cons, append_nil_l. unfold py_int.
    rewrite Ha, (eqb_nonempty _ Hne), Hv. reflexivity.
Qed.

Lemma pretty_colon_free (i : Z) : colon_free (pretty i) = true.
Proof.
  rewrite pretty_Z_unfold. destruct i as [|p|p]; [done | |].
  - destruct (pretty_pos_digits p) as (Ha & _). by apply all_digits_colon_free.
  - destruct (pretty_pos_digits p) as (Ha & _).
    rewrite append_cons, append_nil_l. simpl.
    by apply all_digits_colon_free.
Qed.
End Selector.

(** X23.  The selector entry of a line identifies it: the id that
    [select_line] computes from the entry [update_line_selector] built
    for the line [i] is [i], for every integer [i]; and the entry is the
    legend label [redraw_plot] gives that line. *)
Theorem selected_id_selector_entry (i : Z) :
  selected_id (selector_entry i) = Some i
  ∧ selector_entry i = label_of i.
Proof.
  split; [| reflexivity].
  unfold selected_id, selector_entry, last_segment.
  rewrite last_segment_go_app. rewrite append_cons, append_nil_l.
  cbn [last_segment_go]. rewrite Ascii.eqb_refl.
  rewrite (last_segment_go_colon_free _ _ (pretty_colon_free i)).
  rewrite append_nil_l. apply py_int_pretty.
Qed.

End AppSpec.
